(** * Jacobin: JMOD archives, the JMOD manager, start-up and the
      instrumentation registry

    A shallow embedding of

      - [src/classloader/jmod.go]   ([getZipReader], [Jmod.LoadByName],
        [Jmod.Walk], [getClasslist], [InitJmodManager],
        [JmodManager.LoadClassByName]),
      - [src/jvm/jvmStart.go]       ([JVMrun]),
      - [src/jvm/cli.go]            ([HandleCli], [getOptionRootAndArgs],
        [getEnvArgs], [showCopyright], [findCommitHash]),
      - package [management]: the instrumentation registry
        ([RegisterProvider], [RefreshInstrumentationEndpoints]), the
        counters ([consume]) and the server ([StartServer], [ServeHTTP],
        [writeJson], [providerList]),

    together with the properties the specification states about them.

    Go strings are byte strings and are modelled by [string]; byte slices
    by [list byte]; Go maps by stdpp's [gmap]; a Go [(T, error)] result by
    the three-way [outcome] below, whose third case is a run-time panic. *)

From Stdlib Require Import ZArith NArith Strings.String Strings.Ascii Strings.Byte.
From Stdlib Require Import HexadecimalString Permutation.
From stdpp Require Import gmap strings list fin_maps.

Local Open Scope string_scope.
Local Open Scope list_scope.

(** ** Go values *)

(** [errors.New(msg)]: an error is the message it carries. *)
Inductive error : Type :=
| errors_New (msg : string).

Definition Error (e : error) : string :=
  match e with errors_New msg => msg end.

(** The ways a Go call can end: a value, a non-nil [error], or a panic. *)
Inductive outcome (A : Type) : Type :=
| Ok (a : A)
| Err (e : error)
| Panic (msg : string).

Arguments Ok {A} a.
Arguments Err {A} e.
Arguments Panic {A} msg.

(** Sequencing of calls: the first [Err] or [Panic] ends the function. *)
#[global] Instance outcome_bind : MBind outcome := fun A B k m =>
  match m with
  | Ok a => k a
  | Err e => Err e
  | Panic msg => Panic msg
  end.

Definition of_result {A : Type} (r : A + error) : outcome A :=
  match r with
  | inl a => Ok a
  | inr e => Err e
  end.

Abbreviation bytes := (list byte).

(** ** Package [strings] *)

Module GoStrings.

(** [strings.HasPrefix(s, prefix)] *)
Fixpoint HasPrefix (s prefix : string) : bool :=
  match prefix with
  | EmptyString => true
  | String p prefix' =>
      match s with
      | EmptyString => false
      | String c s' => if Ascii.eqb c p then HasPrefix s' prefix' else false
      end
  end.

(** [strings.HasSuffix(s, suffix)] *)
Definition HasSuffix (s suffix : string) : bool :=
  HasPrefix (String.rev s) (String.rev suffix).

(** [s[n:]] for [n <= len(s)] *)
Fixpoint string_drop (n : nat) (s : string) : string :=
  match n with
  | O => s
  | S n' => match s with EmptyString => EmptyString | String _ s' => string_drop n' s' end
  end.

(** [strings.Replace(s, old, new, 1)] for a non-empty [old]: the first
    occurrence of [old] in [s] is replaced. *)
Fixpoint Replace1 (s old new : string) : string :=
  if HasPrefix s old then new +:+ string_drop (String.length old) s
  else match s with
       | EmptyString => EmptyString
       | String c s' => String c (Replace1 s' old new)
       end.

(** [strings.Split(s, sep)] for a one-byte separator: the pieces between
    the separators, of which there is always at least one. *)
Fixpoint Split (s : string) (sep : ascii) : list string :=
  match s with
  | EmptyString => [EmptyString]
  | String c s' =>
      if Ascii.eqb c sep then EmptyString :: Split s' sep
      else match Split s' sep with
           | [] => [String c EmptyString]
           | piece :: pieces => String c piece :: pieces
           end
  end.

Fixpoint in_cutset (c : ascii) (cutset : string) : bool :=
  match cutset with
  | EmptyString => false
  | String d cutset' => if Ascii.eqb c d then true else in_cutset c cutset'
  end.

Fixpoint TrimLeft (s cutset : string) : string :=
  match s with
  | EmptyString => EmptyString
  | String c s' => if in_cutset c cutset then TrimLeft s' cutset else s
  end.

(** [strings.Contains(s, substr)] *)
Fixpoint Contains (s substr : string) : bool :=
  if HasPrefix s substr then true
  else match s with
       | EmptyString => false
       | String _ s' => Contains s' substr
       end.

(** [strings.TrimRight(s, cutset)] *)
Definition TrimRight (s cutset : string) : string :=
  String.rev (TrimLeft (String.rev s) cutset).

End GoStrings.

Import GoStrings.

Definition CR : string := String (ascii_of_nat 13) EmptyString.
Definition LF : string := String (ascii_of_nat 10) EmptyString.

(** ** Files and ZIP archives

    [os.ReadFile] is a lookup in a finite map from paths to contents; a
    missing path is the error the operating system reports. *)

Definition os_ReadFile (fsys : gmap string bytes) (fileName : string) : outcome bytes :=
  match fsys !! fileName with
  | Some b => Ok b
  | None => Err (errors_New ("open " +:+ fileName +:+ ": no such file or directory"))
  end.

(** [os.ReadFile] returns a slice whose backing array was made with
    [make([]byte, 0, size)], [size] being the larger of the file size plus
    one and 512; the bytes past the length are zero. *)
Definition ReadFile_cap (len : nat) : nat := Nat.max (len + 1) 512.

(** [b[:hi]] on such a slice: a slice may be extended up to its capacity. *)
Definition slice_to (b : bytes) (hi : nat) : outcome bytes :=
  if (hi <=? ReadFile_cap (length b))%nat
  then Ok (take hi (b ++ replicate (ReadFile_cap (length b) - length b) x00))
  else Panic "slice bounds out of range".

(** [b[lo:]]: the upper bound defaults to the length. *)
Definition slice_from (b : bytes) (lo : nat) : outcome bytes :=
  if (lo <=? length b)%nat then Ok (drop lo b)
  else Panic "slice bounds out of range".

(** [binary.BigEndian.Uint16] *)
Definition BigEndian_Uint16 (b : bytes) : outcome N :=
  match b with
  | b0 :: b1 :: _ => Ok (N.lor (N.shiftl (Byte.to_N b0) 8) (Byte.to_N b1))
  | _ => Panic "index out of range"
  end.

(** The verb [%x] of [fmt.Sprintf] on an unsigned integer. *)
Definition fmt_x (n : N) : string := NilZero.string_of_uint (N.to_hex_uint n).

(** An entry of a ZIP archive: its name and what [Open] followed by
    [io.ReadAll] gives for it. *)
Record zip_File : Type := {
  Name : string;
  body : bytes + error
}.

Record zip_Reader : Type := {
  File : list zip_File
}.

(** [reader.Open(name)] followed by [io.ReadAll]: the entry of that name. *)
Definition Reader_Open (reader : zip_Reader) (name : string) : bytes + error :=
  match List.find (fun f => String.eqb (Name f) name) (File reader) with
  | Some f => body f
  | None => inr (errors_New ("open " +:+ name +:+ ": file does not exist"))
  end.

(** ** Package [classloader]: [jmod.go] *)

Module classloader.

Definition MagicNumber : N := 0x4A4D.

(** The visitor of [Walk]. It is a Go closure: what it captures and
    changes is the state [S] it threads. *)
Definition WalkEntryFunc (S : Type) : Type := bytes -> string -> S -> S * option error.

Record Jmod : Type := {
  FileName : string;
  entryListOnce : bool;              (* has the [sync.Once] fired? *)
  entries : gmap string string
}.

Definition InitJmod (fileName : string) : Jmod :=
  {| FileName := fileName; entryListOnce := false; entries := ∅ |}.

Definition magic_error (fileName : string) (fileMagic : N) : error :=
  errors_New ("An IOException occurred reading " +:+ fileName
              +:+ ": the magic number is invalid. Expected: " +:+ fmt_x MagicNumber
              +:+ ", Got: " +:+ fmt_x fileMagic).

(** The body of the loop of [getClasslist] for one line [c]. *)
Definition classlist_key (c : string) : string :=
  (if HasSuffix c CR || HasSuffix c LF then TrimRight c (CR +:+ LF) else c) +:+ ".class".

(** [getClasslist]: the set is empty if [lib/classlist] cannot be opened
    or read (the log lines are not modelled). *)
Definition getClasslist (reader : zip_Reader) : gset string :=
  match Reader_Open reader "lib/classlist" with
  | inr _ => ∅
  | inl classlistContent =>
      let classes := Split (string_of_list_byte classlistContent) (ascii_of_nat 10) in
      foldl (fun (classSet : gset string) c => {[ classlist_key c ]} ∪ classSet) ∅ classes
  end.

(** One pass of [for _, f := range r.File] in [Walk], from the entry list
    [files] on: the error returned if the loop returns early, the [entries]
    map and the visitor's state. *)
Fixpoint Walk_loop {S : Type} (walk : WalkEntryFunc S) (fileName : string)
    (classSet : gset string) (useClassSet : bool) (files : list zip_File)
    (ents : gmap string string) (st : S) : option error * gmap string string * S :=
  match files with
  | [] => (None, ents, st)
  | f :: rest =>
      if negb (HasPrefix (Name f) "classes")
      then Walk_loop walk fileName classSet useClassSet rest ents st
      else
        let classFileName := Replace1 (Name f) "classes/" "" in
        let ents' := <[classFileName := Name f]> ents in
        if (if useClassSet then negb (bool_decide (classFileName ∈ classSet))
            else negb (HasSuffix (Name f) ".class"))
        then Walk_loop walk fileName classSet useClassSet rest ents' st
        else
          match body f with
          | inr err => (Some err, ents', st)
          | inl b =>
              (* _ = walk(b, j.FileName+"+"+f.Name) *)
              let st' := fst (walk b (fileName +:+ "+" +:+ Name f) st) in
              Walk_loop walk fileName classSet useClassSet rest ents' st'
          end
  end.

(** The once-guarded loop of [LoadByName]. *)
Definition populate (files : list zip_File) (ents : gmap string string) : gmap string string :=
  foldl (fun (ents : gmap string string) f =>
           if negb (HasPrefix (Name f) "classes") then ents
           else <[Replace1 (Name f) "classes/" "" := Name f]> ents)
        ents files.

Section Archives.

(** [zip.NewReader] of package [archive/zip] decodes the payload; it is a
    parameter of the development. *)
Variable zip_NewReader : bytes -> zip_Reader + error.

Definition getZipReader (fsys : gmap string bytes) (fileName : string) : outcome zip_Reader :=
  b ← os_ReadFile fsys fileName;
  b2 ← slice_to b 2;
  fileMagic ← BigEndian_Uint16 b2;
  if negb (N.eqb fileMagic MagicNumber)
  then Err (magic_error fileName fileMagic)
  else
    (* Skip over the JMOD header so that it is recognized as a ZIP file *)
    payload ← slice_from b 4;
    of_result (zip_NewReader payload).

(** [LoadByName]: [Ok None] is the result [(nil, nil)]; [io.ReadAll] never
    returns a nil slice together with a nil error. *)
Definition LoadByName (fsys : gmap string bytes) (j : Jmod) (name : string)
    : outcome (option bytes) * Jmod :=
  match getZipReader fsys (FileName j) with
  | Err e => (Err e, j)
  | Panic m => (Panic m, j)
  | Ok reader =>
      let j' := if entryListOnce j then j
                else {| FileName := FileName j; entryListOnce := true;
                        entries := populate (File reader) (entries j) |} in
      match entries j' !! name with
      | Some class =>
          match Reader_Open reader class with
          | inr e => (Err e, j')
          | inl b => (Ok (Some b), j')
          end
      | None => (Ok None, j')
      end
  end.

(** [Walk]: [Ok tt] is the result [nil]. *)
Definition Walk {S : Type} (fsys : gmap string bytes) (j : Jmod) (walk : WalkEntryFunc S) (st : S)
    : outcome unit * Jmod * S :=
  match getZipReader fsys (FileName j) with
  | Err e => (Err e, j, st)
  | Panic m => (Panic m, j, st)
  | Ok r =>
      let classSet := getClasslist r in
      let useClassSet := (0 <? size classSet)%nat in
      let '(err, ents, st') :=
        Walk_loop walk (FileName j) classSet useClassSet (File r) (entries j) st in
      let j' := {| FileName := FileName j; entryListOnce := entryListOnce j; entries := ents |} in
      match err with
      | Some e => (Err e, j', st')
      | None => (Ok tt, j', st')
      end
  end.

End Archives.

(** *** The JMOD manager *)

(** [os.PathSeparator] (the development fixes the Unix separator). *)
Definition PathSeparator : string := "/".

(** The last element of a path that does not end in a separator. *)
Fixpoint until_separator (s : string) : string :=
  match s with
  | EmptyString => EmptyString
  | String c s' => if Ascii.eqb c "/" then EmptyString else String c (until_separator s')
  end.

(** [filepath.Base] *)
Definition filepath_Base (path : string) : string :=
  if String.eqb path "" then "."
  else
    let last := String.rev (until_separator (String.rev (TrimRight path "/"))) in
    if String.eqb last "" then "/" else last.

(** The directory trees [filepath.Walk] sees: an existing root directory is
    mapped to the paths below it, in the lexical order of the walk. *)
Definition filepath_Walk (tree : gmap string (list string)) (root : string) : list string :=
  match tree !! root with
  | None => [root]               (* Lstat fails: fn(root, nil, err) *)
  | Some below => root :: below
  end.

(** [jmodList] holds pointers to [Jmod] handles, and [base] is one of
    them: whenever the walk assigns [base] it has just stored the same
    pointer under the key [baseName]; so [base] is modelled by that key. *)
Record JmodManager : Type := {
  jmodList : gmap string Jmod;
  base : string
}.

(** The function literal passed to [filepath.Walk], on the pair of the
    captured variables [jmodList] and [base]. *)
Definition InitJmodManager_visit (baseName : string)
    (acc : gmap string Jmod * option string) (path : string) : gmap string Jmod * option string :=
  if negb (HasSuffix path ".jmod") then acc
  else
    let jmodEntry := InitJmod path in
    let jmodList := <[filepath_Base path := jmodEntry]> (fst acc) in
    if String.eqb (filepath_Base path) baseName
    then (jmodList, Some (filepath_Base path))
    else (jmodList, snd acc).

Definition InitJmodManager (tree : gmap string (list string)) (javaHome baseName : string)
    : outcome JmodManager :=
  let baseDir := javaHome +:+ PathSeparator +:+ "jmods" in
  let walked := foldl (InitJmodManager_visit baseName) (∅, None) (filepath_Walk tree baseDir) in
  match snd walked with
  | None =>
      Err (errors_New ("Base JMOD with name " +:+ baseName +:+ " not found in " +:+ baseDir))
  | Some b => Ok {| jmodList := fst walked; base := b |}
  end.

(** The keys of a Go map come in an unspecified order when it is ranged
    over: any arrangement of the keys is a possible iteration order. *)
Definition range_order {V : Type} (m : gmap string V) (order : list string) : Prop :=
  order ≡ₚ (map_to_list m).*1.

Section Manager.

Variable zip_NewReader : bytes -> zip_Reader + error.

(** [LoadClassByName], ranging over [jmodList] in the order [order]. The
    handles are shared, so what [LoadByName] does to a handle is stored
    back under its key. *)
Fixpoint LoadClassByName_range (fsys : gmap string bytes) (order : list string)
    (jmodList : gmap string Jmod) (name : string) : outcome (option bytes) * gmap string Jmod :=
  match order with
  | [] => (Ok None, jmodList)
  | k :: rest =>
      match jmodList !! k with
      | None => LoadClassByName_range fsys rest jmodList name
      | Some value =>
          let '(res, value') := LoadByName zip_NewReader fsys value name in
          let jmodList' := <[k := value']> jmodList in
          match res with
          | Err e => (Err e, jmodList')
          | Panic m => (Panic m, jmodList')
          | Ok (Some b) => (Ok (Some b), jmodList')
          | Ok None => LoadClassByName_range fsys rest jmodList' name
          end
      end
  end.

Definition LoadClassByName (fsys : gmap string bytes) (order : list string)
    (manager : JmodManager) (name : string) : outcome (option bytes) * JmodManager :=
  let '(res, jl) := LoadClassByName_range fsys order (jmodList manager) name in
  (res, {| jmodList := jl; base := base manager |}).

Definition WalkBaseClasses {S : Type} (fsys : gmap string bytes) (manager : JmodManager)
    (walk : WalkEntryFunc S) (st : S) : outcome unit * JmodManager * S :=
  match jmodList manager !! base manager with
  | None => (Panic "nil pointer dereference", manager, st)
  | Some b =>
      let '(res, b', st') := Walk zip_NewReader fsys b walk st in
      (res, {| jmodList := <[base manager := b']> (jmodList manager); base := base manager |}, st')
  end.

End Manager.

End classloader.

(** ** Package [jvm]: [jvmStart.go] *)

Module jvm.

(** Modelled from the spec: the reason codes of the shutdown sequencer
    (package [shutdown] is not among the sources). *)
Inductive ExitStatus : Type :=
| OK
| APP_EXCEPTION
| JVM_EXCEPTION.

(** Modelled from the spec: the ordered levels of the logger (package
    [log] is not among the sources). *)
Inductive LogLevel : Type :=
| SEVERE | WARNING | INFO | CLASS | FINE | FINEST | TRACE_INST.

(** The fields of [globals.Globals] that [JVMrun] reads. *)
Record Globals : Type := {
  JacobinName : string;
  StartingJar : string;
  StartingClass : string;
  ExitNow : bool
}.

(** What [JVMrun] itself does that can be seen from outside: its calls of
    [log.Log], of [ShowUsage], and the value it returns. *)
Inductive event : Type :=
| Log (msg : string) (level : LogLevel)
| ShowUsage.

Section JVMrun.

(** Functions of packages that are not among the sources. *)
Variable shutdown_Exit : ExitStatus -> Z.
Variable InitGlobals : string -> Globals.
Variable GetMainClassFromJar : string -> string + error.
Variable LoadClassFromJar : string -> string -> string + error.
Variable LoadClassFromFile : string -> string + error.
Variable StartExec : string -> Globals -> option error.

(** What the actions of the options table ([LoadOptionsTable], not among
    the sources) make of [Global] while [HandleCli] runs over the
    arguments. *)
Variable HandleCli_options : list string -> Globals -> Globals.

(** [HandleCli]: its one [return] statement is [return nil]. *)
Definition HandleCli (osArgs : list string) (Global : Globals) : option error * Globals :=
  (None, HandleCli_options osArgs Global).

(** [JVMrun], given [os.Args] and the value of [globals.GetGlobalRef()]:
    the events of [JVMrun] in the order they happen and the returned
    value. The metric writer, the management server, [classloader.Init],
    [LoadBaseClasses], [LoadReferencedClasses] and the last read from the
    standard input take no part in the choice of the returned value. *)
Definition JVMrun (osArgs : list string) (globalRef : Globals) : list event * Z :=
  let Global0 :=
    if negb (String.eqb (JacobinName globalRef) "test")
    then InitGlobals (hd "" osArgs)
    else globalRef in
  let ev0 := [Log ("running program: " +:+ JacobinName Global0) FINE] in
  let '(err, Global) := HandleCli osArgs Global0 in
  match err with
  | Some _ => (ev0, shutdown_Exit APP_EXCEPTION)
  | None =>
      if ExitNow Global then (ev0, shutdown_Exit OK)
      else if negb (String.eqb (StartingJar Global) "") then
        match GetMainClassFromJar (StartingJar Global) with
        | inr err => (ev0 ++ [Log (Error err) INFO], shutdown_Exit JVM_EXCEPTION)
        | inl manifestClass =>
            if String.eqb manifestClass ""
            then (ev0 ++ [Log ("no main manifest attribute, in " +:+ StartingJar Global) INFO],
                  shutdown_Exit APP_EXCEPTION)
            else
              match LoadClassFromJar manifestClass (StartingJar Global) with
              | inr _ => (ev0, shutdown_Exit JVM_EXCEPTION)
              | inl mainClass =>
                  let ev := ev0 ++ [Log ("Starting execution with: " +:+ mainClass) INFO] in
                  match StartExec mainClass Global with
                  | Some _ => (ev, shutdown_Exit APP_EXCEPTION)
                  | None => (ev, shutdown_Exit OK)
                  end
              end
        end
      else if negb (String.eqb (StartingClass Global) "") then
        match LoadClassFromFile (StartingClass Global) with
        | inr _ => (ev0, shutdown_Exit JVM_EXCEPTION)
        | inl mainClass =>
            let ev := ev0 ++ [Log ("Starting execution with: " +:+ mainClass) INFO] in
            match StartExec mainClass Global with
            | Some _ => (ev, shutdown_Exit APP_EXCEPTION)
            | None => (ev, shutdown_Exit OK)
            end
        end
      else
        (ev0 ++ [Log "Error: No executable program specified. Exiting." INFO; ShowUsage],
         shutdown_Exit APP_EXCEPTION)
  end.

End JVMrun.

End jvm.

(** ** Package [management]: the instrumentation registry *)

Module management.

Record InstrumentationEntry : Type := {
  Key : string;
  Description : string
}.

Section Registry.

(** The type [any] of the [Data] field. *)
Variable any : Type.

Record InstrumentationDetail : Type := {
  Entry : InstrumentationEntry;
  Data : any
}.

(** A value of the interface [InstrumentationProvider]: its three
    methods. *)
Record InstrumentationProvider : Type := {
  Name : string;
  List : list InstrumentationEntry;
  Detail : string -> InstrumentationDetail
}.

(** The handlers stored in [mux]. *)
Inductive handler : Type :=
| metricsEndpoint
| instrumentationProvidersEndpoint
| makeProviderListEndpoint (name : string).

(** The package-level variables [instrumentationProviders] and [mux]. *)
Record state : Type := {
  instrumentationProviders : gmap string InstrumentationProvider;
  mux : gmap string handler
}.

Definition RefreshInstrumentationEndpoints
    (providers : gmap string InstrumentationProvider) (m : gmap string handler)
    : gmap string handler :=
  map_fold (fun _ p (m : gmap string handler) =>
              <["/instrumentation/" +:+ Name p := makeProviderListEndpoint (Name p)]> m)
           m providers.

(** [RegisterProvider]: the returned error ([None] is [nil]) and the
    package-level variables afterwards. *)
Definition RegisterProvider (provider : InstrumentationProvider) (st : state)
    : option error * state :=
  match instrumentationProviders st !! Name provider with
  | Some _ =>
      (Some (errors_New ("Provider with name " +:+ Name provider +:+ " already registered")), st)
  | None =>
      let providers := <[Name provider := provider]> (instrumentationProviders st) in
      (None, {| instrumentationProviders := providers;
                mux := RefreshInstrumentationEndpoints providers (mux st) |})
  end.

Definition GetProvider (name : string) (st : state) : option InstrumentationProvider :=
  instrumentationProviders st !! name.

End Registry.

End management.

(** ** Package [classloader]: the parser and the normalizer

    The sources of [parse], [convertToPostableClass] and
    [ParseAndPostClass] are not part of the repository snapshot; only
    their tests are. The types below are those the tests build. *)

Module classfile.

(** The tags of constant-pool entries; [Dummy] is the zero value, which
    fills the reserved entry 0. *)
Inductive cpTag : Type :=
| Dummy | UTF8 | IntConst | FloatConst | LongConst | DoubleConst
| ClassRef | StringConst | FieldRef | MethodRef | Interface | NameAndType
| MethodHandle | MethodType | Dynamic | InvokeDynamic | Module_ | Package.

#[global] Instance cpTag_eq_dec : EqDecision cpTag.
Proof. solve_decision. Defined.

Record cpEntry : Type := { entryType : cpTag; slot : nat }.
Record stringConstantEntry : Type := { index : nat }.
Record utf8Entry : Type := { content : string }.

Record ParsedClass : Type := {
  className : string;
  cpCount : nat;
  cpIndex : list cpEntry;
  stringRefs : list stringConstantEntry;
  utf8Refs : list utf8Entry
}.

Record CpEntry : Type := { Type_ : cpTag; Slot : nat }.

Record CPool : Type := {
  CpIndex : list CpEntry;
  Utf8Refs : list string
}.

Record ClData : Type := {
  Name : string;
  CP : CPool
}.

Record Klass : Type := {
  Status : ascii;
  Loader : string;
  Data : ClData
}.

(** Modelled from the spec: the magic-number rule of [parse], which is
    missing from the sources ("Magic must equal 0xCAFEBABE; otherwise fail
    "invalid magic number""). *)
Definition parseMagicNumber (b : bytes) : option error :=
  match b with
  | b0 :: b1 :: b2 :: b3 :: _ =>
      if Byte.eqb b0 xca && Byte.eqb b1 xfe && Byte.eqb b2 xba && Byte.eqb b3 xbe
      then None
      else Some (errors_New "invalid magic number")
  | _ => Some (errors_New "invalid magic number")
  end.

(** Modelled from the spec: the rewriting of one pool entry by
    [convertToPostableClass], which is missing from the sources ("any pool
    entry of tag string-constant is rewritten in place to tag UTF8, its
    side-table index repointed to the utf8 entry referenced by the
    original string-constant. Other pool kinds are carried across
    unchanged"). The string-constant's [index] is the pool index of the
    UTF8 entry it references, as in the class file. *)
Definition convert_entry (klass : ParsedClass) (e : cpEntry) : outcome CpEntry :=
  match entryType e with
  | StringConst =>
      match stringRefs klass !! slot e with
      | None => Panic "index out of range"
      | Some sce =>
          match cpIndex klass !! index sce with
          | None => Panic "index out of range"
          | Some target => Ok {| Type_ := UTF8; Slot := slot target |}
          end
      end
  | t => Ok {| Type_ := t; Slot := slot e |}
  end.

(** Modelled from the spec: the pass of [convertToPostableClass] over
    the pool, missing from the sources like the function itself; it stops
    at the first entry whose rewriting is out of range. *)
Fixpoint convert_pool (klass : ParsedClass) (pool : list cpEntry) : outcome (list CpEntry) :=
  match pool with
  | [] => Ok []
  | e :: pool' =>
      e' ← convert_entry klass e;
      rest ← convert_pool klass pool';
      Ok (e' :: rest)
  end.

(** Modelled from the spec: [convertToPostableClass], which is missing
    from the sources; the pool is rewritten entry by entry and the utf8
    side table is carried across. *)
Definition convertToPostableClass (klass : ParsedClass) : outcome ClData :=
  pool ← convert_pool klass (cpIndex klass);
  Ok {| Name := className klass;
        CP := {| CpIndex := pool; Utf8Refs := content <$> utf8Refs klass |} |}.

(** The string a pool index of a parsed class stands for: that of a UTF8
    entry, or of the UTF8 entry a string-constant references. *)
Definition resolved_parsed (klass : ParsedClass) (i : nat) : option string :=
  e ← cpIndex klass !! i;
  match entryType e with
  | UTF8 => content <$> utf8Refs klass !! slot e
  | StringConst =>
      sce ← stringRefs klass !! slot e;
      target ← cpIndex klass !! index sce;
      match entryType target with
      | UTF8 => content <$> utf8Refs klass !! slot target
      | _ => None
      end
  | _ => None
  end.

(** The string a pool index of a postable class stands for. *)
Definition resolved_postable (k : ClData) (i : nat) : option string :=
  e ← CpIndex (CP k) !! i;
  match Type_ e with
  | UTF8 => Utf8Refs (CP k) !! Slot e
  | _ => None
  end.

(** The invariant of a parsed class the normalizer relies on: every
    string-constant has its side-table entry, and that entry references a
    UTF8 entry of the pool. *)
Definition string_const_ok (klass : ParsedClass) (e : cpEntry) : bool :=
  match entryType e with
  | StringConst =>
      match stringRefs klass !! slot e with
      | None => false
      | Some sce =>
          match cpIndex klass !! index sce with
          | Some target => bool_decide (entryType target = UTF8)
          | None => false
          end
      end
  | _ => true
  end.

Definition string_refs_valid (klass : ParsedClass) : bool :=
  forallb (string_const_ok klass) (cpIndex klass).

Section Pipeline.

(** The parsing after the magic number and the format check, both
    missing from the sources. *)
Variable parse_body : bytes -> ParsedClass + error.
Variable formatCheck : ParsedClass -> option error.

(** Modelled from the spec: [parse], which is missing from the sources;
    the magic number is checked before anything else is read. *)
Definition parse (rawBytes : bytes) : ParsedClass + error :=
  match parseMagicNumber rawBytes with
  | Some e => inr e
  | None => parse_body rawBytes
  end.

(** Modelled from the spec: [insert] into the method area, which is
    missing from the sources ("installs a new record iff no record
    currently exists under name"). *)
Definition insert_class (name : string) (k : Klass) (Classes : gmap string Klass)
    : gmap string Klass :=
  match Classes !! name with
  | Some _ => Classes
  | None => <[name := k]> Classes
  end.

(** Modelled from the spec: [ParseAndPostClass], which is missing from
    the sources: parse, format-check, normalize, insert under the loader;
    an error of a stage is returned and nothing is inserted. *)
Definition ParseAndPostClass (loader : string) (filename : string) (rawBytes : bytes)
    (Classes : gmap string Klass) : outcome string * gmap string Klass :=
  match parse rawBytes with
  | inr e => (Err e, Classes)
  | inl fullyParsedClass =>
      match formatCheck fullyParsedClass with
      | Some e => (Err e, Classes)
      | None =>
          match convertToPostableClass fullyParsedClass with
          | Err e => (Err e, Classes)
          | Panic m => (Panic m, Classes)
          | Ok classToPost =>
              (Ok (Name classToPost),
               insert_class (Name classToPost)
                 {| Status := "F"%char; Loader := loader; Data := classToPost |} Classes)
          end
      end
  end.

End Pipeline.

End classfile.

(** ** Package [management]: the counters of [metrics.go] *)

Module metrics.

(** The value of an [int64] computation whose exact result is [z]. *)
Definition int64_wrap (z : Z) : Z := ((z + 2 ^ 63) mod 2 ^ 64 - 2 ^ 63)%Z.

(** The body of the loop of [consume] for one received name. *)
Definition consume_one (counterMap : gmap string Z) (name : string) : gmap string Z :=
  match counterMap !! name with
  | None => <[name := 1%Z]> counterMap
  | Some v => <[name := int64_wrap (v + 1)]> counterMap
  end.

(** [consume], on the names received from [counterChan] up to its
    closing, in the order they are received: [IncrementCounter] sends one
    name, and the one goroutine of [StartMetricWriter] is the only writer
    of [counterMap]. *)
Definition consume (received : list string) (counterMap : gmap string Z) : gmap string Z :=
  foldl consume_one counterMap received.

Definition GetCounters (counterMap : gmap string Z) : gmap string Z := counterMap.

End metrics.

(** ** Package [management]: the server and its endpoints *)

Module server.

(** What a handler does to its [http.ResponseWriter], and what it prints,
    in the order it does it. *)
Inductive response_event : Type :=
| Header_Add (key value : string)
| WriteHeader (statusCode : Z)
| WriteString (s : string)
| Println (s : string).

Definition StatusOK : Z := 200.
Definition StatusNotFound : Z := 404.
Definition StatusInternalServerError : Z := 500.

Section Server.

Variable any : Type.

(** [runtime.MemStats] *)
Variable MemStats : Type.

(** The values handed to [writeJson]: [MetricResponse],
    [ProviderResponse] and [ListResponse]. *)
Inductive json_value : Type :=
| MetricResponse (GoStats_Memory : MemStats) (Counters : gmap string Z)
| ProviderResponse (Providers : list string)
| ListResponse (Items : list management.InstrumentationEntry).

(** [json.Marshal] of package [encoding/json]. *)
Variable json_Marshal : json_value -> string + error.

Definition writeJson (obj : json_value) : list response_event :=
  match json_Marshal obj with
  | inr err =>
      [Println (Error err); WriteHeader StatusInternalServerError; WriteString (Error err)]
  | inl jsonRes => [WriteHeader StatusOK; WriteString jsonRes]
  end.

(** [GetProviders], ranging over the registry in the order [order]. *)
Definition GetProviders (order : list string) (st : management.state any)
    : list (management.InstrumentationProvider any) :=
  omap (fun k => management.instrumentationProviders any st !! k) order.

Definition metricsEndpoint (memoryStats : MemStats) (counterMap : gmap string Z)
    : list response_event :=
  writeJson (MetricResponse memoryStats (metrics.GetCounters counterMap)).

Definition instrumentationProvidersEndpoint (order : list string) (st : management.state any)
    : list response_event :=
  writeJson (ProviderResponse (management.Name any <$> GetProviders order st)).

Definition providerList (st : management.state any) (name : string) : list response_event :=
  match management.GetProvider any name st with
  | None =>
      [WriteHeader StatusNotFound; WriteString ("Provider '" +:+ name +:+ "' not found.")]
  | Some provider => writeJson (ListResponse (management.List any provider))
  end.

(** The call [h(w, r)] of a handler stored in [mux]; what
    [runtime.ReadMemStats] reads, the counters and the order in which the
    registry is ranged over are given. *)
Definition call_handler (h : management.handler) (order : list string)
    (memoryStats : MemStats) (counterMap : gmap string Z) (st : management.state any)
    : list response_event :=
  match h with
  | management.metricsEndpoint => metricsEndpoint memoryStats counterMap
  | management.instrumentationProvidersEndpoint => instrumentationProvidersEndpoint order st
  | management.makeProviderListEndpoint name => providerList st name
  end.

(** The method [ServeHTTP] of [jsonHandler], for a request of URL [url]. *)
Definition ServeHTTP (url : string) (order : list string)
    (memoryStats : MemStats) (counterMap : gmap string Z) (st : management.state any)
    : list response_event :=
  match management.mux any st !! url with
  | Some h =>
      Header_Add "Content-Type" "text/json"
      :: call_handler h order memoryStats counterMap st
  | None => [WriteString ("Unmapped URL: " +:+ url)]
  end.

(** [StartServer]: the two fixed endpoints are stored in [mux]; the
    listening goroutine is not modelled. *)
Definition StartServer (st : management.state any) : management.state any :=
  {| management.instrumentationProviders := management.instrumentationProviders any st;
     management.mux :=
       <["/instrumentation" := management.instrumentationProvidersEndpoint]>
         (<["/metrics" := management.metricsEndpoint]> (management.mux any st)) |}.

(** The steps that change the package-level variables. *)
Inductive step : Type :=
| Register (provider : management.InstrumentationProvider any)
| Start.

Definition run_step (st : management.state any) (o : step) : management.state any :=
  match o with
  | Register provider => snd (management.RegisterProvider any provider st)
  | Start => StartServer st
  end.

(** The package-level variables when the program starts. *)
Definition initial : management.state any :=
  {| management.instrumentationProviders := ∅; management.mux := ∅ |}.

(** Every provider is stored under its name. *)
Definition keyed_by_name (st : management.state any) : Prop :=
  forall k p, management.instrumentationProviders any st !! k = Some p ->
              management.Name any p = k.

(** Every provider-list endpoint in [mux] is for a registered name. *)
Definition endpoints_registered (st : management.state any) : Prop :=
  forall url name,
    management.mux any st !! url = Some (management.makeProviderListEndpoint name) ->
    is_Some (management.instrumentationProviders any st !! name).

End Server.

End server.

(** ** Package [jvm]: [cli.go] *)

Module cli.

(** [strings.Index(s, substr)]: the index of the first occurrence, or -1. *)
Fixpoint Index (s substr : string) : Z :=
  if HasPrefix s substr then 0%Z
  else match s with
       | EmptyString => (-1)%Z
       | String _ s' =>
           let i := Index s' substr in
           if (i <? 0)%Z then (-1)%Z else (i + 1)%Z
       end.

(** [s[:n]] for [n <= len(s)] *)
Fixpoint string_take (n : nat) (s : string) : string :=
  match n with
  | O => EmptyString
  | S n' => match s with EmptyString => EmptyString | String c s' => String c (string_take n' s') end
  end.

(** [getOptionRootAndArgs]: the option, its embedded argument, and the
    error ([None] is [nil]). The two slices are within the string, as
    [argMarker] is the index of a byte of it. *)
Definition getOptionRootAndArgs (option_ : string) : string * string * option error :=
  if (String.length option_ =? 0)%nat
  then ("", "", Some (errors_New "empty option error"))
  else
    let argMarker := Index option_ ":" in
    let argMarker := if (argMarker =? -1)%Z then Index option_ "=" else argMarker in
    if (argMarker =? -1)%Z then (option_, "", None)
    else (string_take (Z.to_nat argMarker) option_,
          string_drop (Z.to_nat (argMarker + 1)) option_,
          None).

(** [debug.BuildSetting] *)
Record BuildSetting : Type := {
  Key : string;
  Value : string
}.

Fixpoint findCommitHash (settings : list BuildSetting) : string :=
  match settings with
  | [] => ""
  | setting :: settings' =>
      if String.eqb (Key setting) "vcs.revision" then Value setting
      else findCommitHash settings'
  end.

(** What the functions of [cli.go] log and print, in order:
    [fmt.Println] on the standard output and [fmt.Fprintf] on the standard
    error. *)
Inductive output : Type :=
| Log (msg : string) (level : jvm.LogLevel)
| Println (line : string)
| Stderr (text : string).

Section Cli.

(** The type of [Global.Options], built by [LoadOptionsTable], which is
    not among the sources. *)
Variable OptionsTable : Type.

(** The fields of [globals.Globals] that [cli.go] reads and writes. *)
Record Globals : Type := {
  JavaHome : string;
  JacobinHome : string;
  CommandLine : string;
  Args : list string;
  AppArgs : list string;
  StartingClass : string;
  Version : string;
  StrictJDK : bool;
  Options : OptionsTable
}.

(** [Global.Options[option]]: the action of the option, if there is one.
    [opt.Action(i, arg, Global)] returns the new index (its error is
    assigned to [_]) and changes [Global] through the pointer. *)
Variable Options_lookup :
  OptionsTable -> string -> option (Z -> string -> Globals -> Z * Globals).

(** [strings.TrimSpace] and [strings.Fields], which go by Unicode white
    space. *)
Variable strings_TrimSpace : string -> string.
Variable strings_Fields : string -> list string.

(** [getEnvArgs], given [os.Getenv]. *)
Definition getEnvArgs (Getenv : string -> string) : string :=
  strings_TrimSpace
    (foldl (fun envArgs key =>
              let envString := Getenv key in
              if (0 <? String.length envString)%nat
              then
                let envArgs := envArgs +:+ envString in
                if negb (HasSuffix envArgs " ") then envArgs +:+ " " else envArgs
              else envArgs)
           "" ["JAVA_TOOL_OPTIONS"; "_JAVA_OPTIONS"; "JDK_JAVA_OPTIONS"]).

Definition showJavaHomeArgs (Global : Globals) : list output :=
  (if negb (String.eqb (JavaHome Global) "")
   then [Log ("JAVA_HOME: " +:+ JavaHome Global) jvm.FINE] else [])
  ++ (if negb (String.eqb (JacobinHome Global) "")
      then [Log ("JACOBIN_HOME: " +:+ JacobinHome Global) jvm.FINE] else []).

Definition showCopyright (global : Globals) : list output :=
  if negb (Contains (CommandLine global) "-showversion")
     && negb (Contains (CommandLine global) "--show-version")
     && negb (Contains (CommandLine global) "-version")
     && negb (Contains (CommandLine global) "--version")
  then
    if negb (StrictJDK global)
    then [Println ("Jacobin VM v. " +:+ Version global
                   +:+ ", © 2021-2 by Andrew Binstock. All rights reserved. MPL 2.0 License.")]
    else []
  else [].

(** The loop of [HandleCli] over [args] from index [i] on; [err] is the
    named result, which lives across the turns of the loop. [None] means
    that [fuel] turns were not enough. *)
Fixpoint HandleCli_loop (fuel : nat) (args : list string) (i : Z) (err : option error)
    (Global : Globals) (out : list output) : option (outcome (Globals * list output)) :=
  match fuel with
  | O => None
  | S fuel' =>
      if negb (i <? Z.of_nat (length args))%Z then Some (Ok (Global, out))
      else if (i <? 0)%Z then Some (Panic "index out of range")
      else
        match args !! Z.to_nat i with
        | None => Some (Panic "index out of range")
        | Some a =>
            let '(option_, arg, err') :=
              if HasPrefix a "-" then getOptionRootAndArgs a else (a, "", err) in
            match err' with
            | Some _ => HandleCli_loop fuel' args (i + 1) err' Global out
            | None =>
                if HasSuffix option_ ".class"
                then
                  Some (Ok ({| JavaHome := JavaHome Global;
                               JacobinHome := JacobinHome Global;
                               CommandLine := CommandLine Global;
                               Args := Args Global;
                               AppArgs := AppArgs Global ++ drop (Z.to_nat (i + 1)) args;
                               StartingClass := option_;
                               Version := Version Global;
                               StrictJDK := StrictJDK Global;
                               Options := Options Global |}, out))
                else
                  match Options_lookup (Options Global) option_ with
                  | Some action =>
                      let '(i', Global') := action i arg Global in
                      HandleCli_loop fuel' args (i' + 1) err' Global' out
                  | None =>
                      HandleCli_loop fuel' args (i + 1) err' Global
                        (out ++ [Stderr (a +:+ " is not a recognized option. Ignored."
                                         +:+ LF)])
                  end
            end
        end
  end.

(** [HandleCli]: the error it returns (always [nil]), [Global] and the
    output; [osArgs[1:]] panics on an empty [osArgs]. *)
Definition HandleCli (fuel : nat) (Getenv : string -> string) (osArgs : list string)
    (Global : Globals) : option (outcome (option error * Globals * list output)) :=
  let javaEnvOptions := getEnvArgs Getenv in
  let out := [Log ("Java environment variables: " +:+ javaEnvOptions) jvm.FINE]
             ++ showJavaHomeArgs Global in
  match osArgs with
  | [] => Some (Panic "slice bounds out of range")
  | _ :: rest =>
      let cliArgs := foldl (fun cliArgs v => cliArgs +:+ v +:+ " ") (javaEnvOptions +:+ " ") rest in
      let Global1 :=
        {| JavaHome := JavaHome Global; JacobinHome := JacobinHome Global;
           CommandLine := strings_TrimSpace cliArgs;
           Args := strings_Fields javaEnvOptions ++ rest;
           AppArgs := AppArgs Global; StartingClass := StartingClass Global;
           Version := Version Global; StrictJDK := StrictJDK Global;
           Options := Options Global |} in
      let out := out ++ [Log ("Commandline: " +:+ CommandLine Global1) jvm.FINE]
                     ++ showCopyright Global1 in
      match HandleCli_loop fuel (Args Global1) 0 None Global1 out with
      | None => None
      | Some (Ok (Global2, out2)) => Some (Ok (None, Global2, out2))
      | Some (Err e) => Some (Err e)
      | Some (Panic m) => Some (Panic m)
      end
  end.

End Cli.

End cli.

(** * The vocabulary of the properties *)

Import GoStrings.

Import classloader.

(** The two bytes [getZipReader] reads as the magic number of a file:
    bytes past the end of a short file read as zero. *)
Definition file_magic (b : bytes) : N :=
  N.lor (N.shiftl (Byte.to_N (nth 0 b x00)) 8) (Byte.to_N (nth 1 b x00)).

(** [len(classSet) > 0] in [Walk] *)
Definition useClassSet (r : zip_Reader) : bool := (0 <? size (getClasslist r))%nat.

(** The entries whose bytes [Walk] reads: those that pass both tests of
    the loop. *)
Definition Walk_selects (classSet : gset string) (use : bool) (f : zip_File) : bool :=
  HasPrefix (Name f) "classes"
  && (if use then bool_decide (Replace1 (Name f) "classes/" "" ∈ classSet)
      else HasSuffix (Name f) ".class").

(** The arguments of the visitor for a selected, readable entry. *)
Definition Walk_call (fileName : string) (classSet : gset string) (use : bool) (f : zip_File)
    : option (bytes * string) :=
  if Walk_selects classSet use f
  then match body f with
       | inl b => Some (b, fileName +:+ "+" +:+ Name f)
       | inr _ => None
       end
  else None.

Definition Walk_calls (fileName : string) (classSet : gset string) (use : bool)
    (files : list zip_File) : list (bytes * string) :=
  omap (Walk_call fileName classSet use) files.

(** One call of the visitor, its returned error dropped. *)
Definition visit {S : Type} (walk : WalkEntryFunc S) (st : S) (call : bytes * string) : S :=
  fst (walk (fst call) (snd call) st).

(** A visitor that records its arguments. *)
Definition recorder : WalkEntryFunc (list (bytes * string)) :=
  fun b filename st => (st ++ [(b, filename)], None).

(** A visitor that records its arguments and fails on every call. *)
Definition failing_recorder : WalkEntryFunc (list (bytes * string)) :=
  fun b filename st => (st ++ [(b, filename)], Some (errors_New "visitor failed")).

(** A JMOD file: the magic, two version bytes, and a payload. *)
Definition jmod_file (payload : bytes) : bytes := x4a :: x4d :: x01 :: x00 :: payload.

(** An archive without [lib/classlist] and with an entry that is not
    under [classes/]. *)
Definition stray_reader : zip_Reader :=
  {| File := [ {| Name := "classesX/A.class"; body := inl [x01; x02] |};
               {| Name := "classes/B.class"; body := inl [x03] |} ] |}.

(** The same entries, with a [lib/classlist] that lists [classesX/A]. *)
Definition stray_listed_reader : zip_Reader :=
  {| File := [ {| Name := "lib/classlist"; body := inl (list_byte_of_string "classesX/A") |};
               {| Name := "classesX/A.class"; body := inl [x01; x02] |};
               {| Name := "classes/B.class"; body := inl [x03] |} ] |}.

(** The entries the tests [TestJmodFile] and [TestJmodFileNoClasslist]
    look for, with and without a classlist that names the one class. *)
Definition jacobin_reader : zip_Reader :=
  {| File := [ {| Name := "classes/module-info.class"; body := inl [xca; xfe] |};
               {| Name := "classes/org/jacobin/test/Hello.class"; body := inl [xba; xbe] |};
               {| Name := "lib/classlist";
                  body := inl (list_byte_of_string ("org/jacobin/test/Hello" +:+ CR +:+ LF)) |} ] |}.

Definition jacobinfull_reader : zip_Reader :=
  {| File := [ {| Name := "classes/module-info.class"; body := inl [xca; xfe] |};
               {| Name := "classes/org/jacobin/test/Hello.class"; body := inl [xba; xbe] |} ] |}.

Definition one_jmod_fs : gmap string bytes := {[ "m.jmod" := jmod_file [x50; x4b] ]}.

(** ** Sequences of operations on one handle *)

Inductive operation : Type :=
| OpLoadByName (name : string)
| OpWalk.

(** The handle after an operation; [Walk] is given the visitor
    [recorder]. *)
Definition run_operation (zip_NewReader : bytes -> zip_Reader + error)
    (fsys : gmap string bytes) (j : Jmod) (o : operation) : Jmod :=
  match o with
  | OpLoadByName name => snd (LoadByName zip_NewReader fsys j name)
  | OpWalk => snd (fst (Walk zip_NewReader fsys j recorder []))
  end.

(** An archive in which two entries have the same class-relative name and
    the entry between them cannot be read. *)
Definition clash_reader : zip_Reader :=
  {| File := [ {| Name := "classes/classesX.class"; body := inl [x01] |};
               {| Name := "classes/bad.class";
                  body := inr (errors_New "zip: unsupported compression algorithm") |};
               {| Name := "classesclasses/X.class"; body := inl [x02] |} ] |}.

(** ** The manager over two archives that hold the same class *)

(** The keys of [jmodList] in the order [InitJmodManager] first stores
    them. *)
Definition insertion_order (tree : gmap string (list string)) (javaHome : string)
    : list string :=
  remove_dups (filepath_Base <$>
               filter (fun path => HasSuffix path ".jmod" = true)
                      (filepath_Walk tree (javaHome +:+ PathSeparator +:+ "jmods"))).

(** The specification's reading of [LoadClassByName], which probes in
    insertion order: whatever
    order the map is ranged over, the result is that of ranging over it in
    insertion order. *)
Definition probes_in_insertion_order (zip_NewReader : bytes -> zip_Reader + error)
    (fsys : gmap string bytes) (tree : gmap string (list string))
    (javaHome baseName name : string) : Prop :=
  forall manager order,
    InitJmodManager tree javaHome baseName = Ok manager ->
    range_order (jmodList manager) order ->
    fst (LoadClassByName zip_NewReader fsys order manager name)
    = fst (LoadClassByName zip_NewReader fsys (insertion_order tree javaHome) manager name).

Definition two_tree : gmap string (list string) :=
  {[ "/jdk/jmods" := ["/jdk/jmods/a.jmod"; "/jdk/jmods/b.jmod"] ]}.

Definition two_fs : gmap string bytes :=
  {[ "/jdk/jmods/a.jmod" := jmod_file [x01]; "/jdk/jmods/b.jmod" := jmod_file [x02] ]}.

Definition reader_with (content : bytes) : zip_Reader :=
  {| File := [ {| Name := "classes/X.class"; body := inl content |} ] |}.

(** The manager [InitJmodManager] builds from [two_tree]. *)
Definition two_manager : JmodManager :=
  {| jmodList := {[ "a.jmod" := InitJmod "/jdk/jmods/a.jmod";
                    "b.jmod" := InitJmod "/jdk/jmods/b.jmod" ]};
     base := "a.jmod" |}.

(** A decoder for the two payloads of [two_fs]. *)
Definition two_NewReader (payload : bytes) : zip_Reader + error :=
  match payload with
  | [x01] => inl (reader_with [x0a])
  | [x02] => inl (reader_with [x0b])
  | _ => inr (errors_New "zip: not a valid zip file")
  end.

(** ** Initializing the manager *)

Definition base_not_found (baseName javaHome : string) : error :=
  errors_New ("Base JMOD with name " +:+ baseName +:+ " not found in "
              +:+ javaHome +:+ PathSeparator +:+ "jmods").

Definition java_home_missing (javaHome : string) : error :=
  errors_New ("JAVA_HOME (" +:+ javaHome +:+ ") does not exist").

(** The specification's reading of a missing Java home: when no
    directory at or below [javaHome] exists, the answer is the
    configuration error. *)
Definition missing_home_is_config_error (tree : gmap string (list string))
    (javaHome baseName : string) : Prop :=
  (forall dir, HasPrefix dir javaHome = true -> tree !! dir = None) ->
  InitJmodManager tree javaHome baseName = Err (java_home_missing javaHome).

(** ** Starting the JVM *)

(** [Global] as [JVMrun] has it once [HandleCli] has returned. *)
Definition Global_after_cli (InitGlobals : string -> jvm.Globals)
    (HandleCli_options : list string -> jvm.Globals -> jvm.Globals)
    (osArgs : list string) (globalRef : jvm.Globals) : jvm.Globals :=
  HandleCli_options osArgs
    (if negb (String.eqb (jvm.JacobinName globalRef) "test")
     then InitGlobals (hd "" osArgs) else globalRef).

(** Sample collaborators: the exit code is the position of the reason,
    the JAR [app.jar] has no [Main-Class], [run.jar] and [Hello.class] are
    the only JAR and class file that load, and execution always fails. *)
Definition sample_Exit (reason : jvm.ExitStatus) : Z :=
  match reason with
  | jvm.OK => 0
  | jvm.APP_EXCEPTION => 1
  | jvm.JVM_EXCEPTION => 2
  end%Z.

Definition sample_GetMainClassFromJar (jar : string) : string + error :=
  if String.eqb jar "app.jar" then inl ""
  else if String.eqb jar "run.jar" then inl "Main"
  else inr (errors_New "Invalid or corrupt jarfile").

Definition sample_LoadClassFromJar (class jar : string) : string + error :=
  if String.eqb jar "run.jar" then inl class
  else inr (errors_New "class not found").

Definition sample_LoadClassFromFile (file : string) : string + error :=
  if String.eqb file "Hello.class" then inl "Hello"
  else inr (errors_New "no such file").

Definition sample_StartExec (class : string) (g : jvm.Globals) : option error :=
  Some (errors_New "no main method").

Definition sample_globals (jar class : string) : jvm.Globals :=
  {| jvm.JacobinName := "test"; jvm.StartingJar := jar; jvm.StartingClass := class;
     jvm.ExitNow := false |}.

(** ** The instrumentation registry *)

Definition duplicate_provider (name : string) : error :=
  errors_New ("Provider with name " +:+ name +:+ " already registered").

Definition sample_provider (name : string) : management.InstrumentationProvider unit :=
  {| management.Name := name;
     management.List := [];
     management.Detail := fun key =>
       {| management.Entry := {| management.Key := key; management.Description := "" |};
          management.Data := tt |} |}.

Definition sample_registry : management.state unit :=
  {| management.instrumentationProviders := {[ "gc" := sample_provider "gc" ]};
     management.mux := ∅ |}.

(** ** Classes *)

(** The class the test [TestConvertToPostableClassStringRefs] builds. *)
Definition test_klass : classfile.ParsedClass :=
  {| classfile.className := "";
     classfile.cpCount := 3;
     classfile.cpIndex :=
       [ {| classfile.entryType := classfile.Dummy; classfile.slot := 0 |};
         {| classfile.entryType := classfile.StringConst; classfile.slot := 0 |};
         {| classfile.entryType := classfile.UTF8; classfile.slot := 0 |} ];
     classfile.stringRefs := [ {| classfile.index := 0 |} ];
     classfile.utf8Refs := [ {| classfile.content := "Hello string" |} ] |}.

(** A class whose string-constant, at pool index 1, references the UTF8
    entry at pool index 3. *)
Definition greeting_klass : classfile.ParsedClass :=
  {| classfile.className := "Greeting";
     classfile.cpCount := 4;
     classfile.cpIndex :=
       [ {| classfile.entryType := classfile.Dummy; classfile.slot := 0 |};
         {| classfile.entryType := classfile.StringConst; classfile.slot := 0 |};
         {| classfile.entryType := classfile.UTF8; classfile.slot := 0 |};
         {| classfile.entryType := classfile.UTF8; classfile.slot := 1 |} ];
     classfile.stringRefs := [ {| classfile.index := 3 |} ];
     classfile.utf8Refs := [ {| classfile.content := "Greeting" |};
                             {| classfile.content := "Hello string" |} ] |}.

(** ** Further sample data *)

(** A file that is no JMOD. *)
Definition readme_fs : gmap string bytes :=
  {[ "README.md" := list_byte_of_string "# jmod test data" ]}.

(** An archive whose classlist is there and empty. *)
Definition empty_classlist_reader : zip_Reader :=
  {| File := [ {| Name := "lib/classlist"; body := inl [] |};
               {| Name := "classes/A.class"; body := inl [x01] |} ] |}.

(** ** The command line *)

(** The option [HandleCli] makes of an argument: what precedes the
    embedded argument when it begins with a hyphen, else the argument
    itself. *)
Definition option_of (a : string) : string :=
  if HasPrefix a "-" then fst (fst (cli.getOptionRootAndArgs a)) else a.

(** [Global] once the loop of [HandleCli] has met the class to run: the
    starting class is set and the arguments after it are added to the
    application's arguments. *)
Definition with_starting_class {OptionsTable : Type} (Global : cli.Globals OptionsTable)
    (class : string) (appArgs : list string) : cli.Globals OptionsTable :=
  {| cli.JavaHome := cli.JavaHome OptionsTable Global;
     cli.JacobinHome := cli.JacobinHome OptionsTable Global;
     cli.CommandLine := cli.CommandLine OptionsTable Global;
     cli.Args := cli.Args OptionsTable Global;
     cli.AppArgs := cli.AppArgs OptionsTable Global ++ appArgs;
     cli.StartingClass := class;
     cli.Version := cli.Version OptionsTable Global;
     cli.StrictJDK := cli.StrictJDK OptionsTable Global;
     cli.Options := cli.Options OptionsTable Global |}.

(** The line written for an argument that is no known option. *)
Definition not_recognized (a : string) : cli.output :=
  cli.Stderr (a +:+ " is not a recognized option. Ignored." +:+ LF).

(** A table with the one option [-jar], whose action skips the next
    argument. *)
Definition sample_options (table : unit) (option_ : string)
    : option (Z -> string -> cli.Globals unit -> Z * cli.Globals unit) :=
  if String.eqb option_ "-jar" then Some (fun i _ g => ((i + 1)%Z, g)) else None.

Definition sample_cli_globals : cli.Globals unit :=
  {| cli.JavaHome := ""; cli.JacobinHome := ""; cli.CommandLine := "";
     cli.Args := []; cli.AppArgs := []; cli.StartingClass := "";
     cli.Version := "0.1.0"; cli.StrictJDK := false; cli.Options := tt |}.

(** ** The index of an archive *)

(** The name of the last entry of [files] that the index stores under
    [key], if there is one. *)
Definition last_entry_for (key : string) (files : list zip_File) : option string :=
  foldl (fun (found : option string) f =>
           if HasPrefix (Name f) "classes"
              && String.eqb (Replace1 (Name f) "classes/" "") key
           then Some (Name f) else found)
        None files.

(** * Properties *)

Import classloader.

Section ArchiveProperties.

Variable zip_NewReader : bytes -> zip_Reader + error.

(** ** Reading the header *)

Lemma slice_to_2 (b : bytes) : slice_to b 2 = Ok [nth 0 b x00; nth 1 b x00].
Proof.
  unfold slice_to.
  assert (Hcap : (2 <=? ReadFile_cap (length b))%nat = true).
  { apply Nat.leb_le. unfold ReadFile_cap. lia. }
  rewrite Hcap. f_equal.
  destruct b as [|b0 [|b1 rest]]; try reflexivity.
Qed.

Lemma getZipReader_magic_mismatch (fsys : gmap string bytes) (fileName : string) (b : bytes) :
  fsys !! fileName = Some b ->
  file_magic b <> MagicNumber ->
  getZipReader zip_NewReader fsys fileName = Err (magic_error fileName (file_magic b)).
Proof.
  intros Hfile Hmagic. unfold getZipReader, os_ReadFile, mbind, outcome_bind.
  rewrite Hfile, slice_to_2. cbn [BigEndian_Uint16]. fold (file_magic b).
  destruct (N.eqb_spec (file_magic b) MagicNumber); [contradiction | reflexivity].
Qed.

Lemma getZipReader_magic_ok (fsys : gmap string bytes) (fileName : string)
    (v0 v1 : byte) (payload : bytes) :
  fsys !! fileName = Some (x4a :: x4d :: v0 :: v1 :: payload) ->
  getZipReader zip_NewReader fsys fileName = of_result (zip_NewReader payload).
Proof.
  intros Hfile. unfold getZipReader, os_ReadFile, mbind, outcome_bind.
  rewrite Hfile, slice_to_2. reflexivity.
Qed.

(** C2. A file that holds the magic number [0x4A4D] and fewer than four
    bytes in all is not answered with an error, nor read as an archive with
    the header skipped: [b[4:]] is out of range and [getZipReader]
    panics. *)
Theorem getZipReader_truncated_header_panics (fileName : string) :
  getZipReader zip_NewReader {[ fileName := [x4a; x4d] ]} fileName
  = Panic "slice bounds out of range".
Proof.
  unfold getZipReader, os_ReadFile. rewrite lookup_singleton_eq. reflexivity.
Qed.

(** ** Walking an archive *)

Lemma populate_cons (f : zip_File) (files : list zip_File) (ents : gmap string string) :
  populate (f :: files) ents
  = populate files (if negb (HasPrefix (Name f) "classes") then ents
                    else <[Replace1 (Name f) "classes/" "" := Name f]> ents).
Proof. reflexivity. Qed.

Lemma Walk_calls_cons (fileName : string) (classSet : gset string) (use : bool)
    (f : zip_File) (files : list zip_File) :
  Walk_calls fileName classSet use (f :: files)
  = match Walk_call fileName classSet use f with
    | Some call => call :: Walk_calls fileName classSet use files
    | None => Walk_calls fileName classSet use files
    end.
Proof. reflexivity. Qed.

Lemma Walk_loop_readable {S : Type} (walk : WalkEntryFunc S) (fileName : string)
    (classSet : gset string) (use : bool) (files : list zip_File) :
  (forall f, f ∈ files -> Walk_selects classSet use f = true -> exists b, body f = inl b) ->
  forall (ents : gmap string string) (st : S),
    Walk_loop walk fileName classSet use files ents st
    = (None, populate files ents,
       foldl (visit walk) st (Walk_calls fileName classSet use files)).
Proof.
  induction files as [|f files IH]; intros Hread ents st; [reflexivity|].
  assert (Hrest : forall g, g ∈ files -> Walk_selects classSet use g = true ->
                            exists b, body g = inl b).
  { intros g Hg. apply Hread. by apply list_elem_of_further. }
  specialize (IH Hrest).
  pose proof (Hread f (list_elem_of_here _ _)) as Hf.
  rewrite populate_cons, Walk_calls_cons. cbn [Walk_loop].
  unfold Walk_call. unfold Walk_selects in Hf |- *.
  destruct (HasPrefix (Name f) "classes"); cbn [negb andb] in Hf |- *; [|apply IH].
  destruct use.
  - destruct (bool_decide _); cbn [negb]; [|apply IH].
    destruct (Hf eq_refl) as [b ->]. cbn [foldl]. apply IH.
  - destruct (HasSuffix (Name f) ".class"); cbn [negb]; [|apply IH].
    destruct (Hf eq_refl) as [b ->]. cbn [foldl]. apply IH.
Qed.

Lemma Walk_calls_elem (fileName : string) (classSet : gset string) (use : bool)
    (files : list zip_File) (b : bytes) (id : string) :
  (b, id) ∈ Walk_calls fileName classSet use files
  <-> exists f, f ∈ files /\ Walk_selects classSet use f = true
                /\ body f = inl b /\ id = fileName +:+ "+" +:+ Name f.
Proof.
  unfold Walk_calls. rewrite list_elem_of_omap. unfold Walk_call. split.
  - intros (f & Hf & Hcall). exists f.
    destruct (Walk_selects classSet use f); [|done].
    destruct (body f) as [b'|]; [|done]. by simplify_eq.
  - intros (f & Hf & Hsel & Hbody & ->). exists f. by rewrite Hsel, Hbody.
Qed.

Lemma under_classes (name : string) :
  HasPrefix name "classes/" = true ->
  HasPrefix name "classes" = true /\ Replace1 name "classes/" "" = string_drop 8 name.
Proof.
  intros H. split.
  - do 7 (destruct name as [|? name]; [discriminate H|];
          cbn [HasPrefix] in H |- *; destruct (Ascii.eqb _ _); [|discriminate H]).
    by destruct name.
  - destruct name as [|c name]; [discriminate H|].
    cbn [Replace1]. rewrite H. reflexivity.
Qed.

Lemma Walk_selects_under_classes (classSet : gset string) (f : zip_File) :
  HasPrefix (Name f) "classes/" = true ->
  Walk_selects classSet true f = bool_decide (string_drop 8 (Name f) ∈ classSet)
  /\ Walk_selects classSet false f = HasSuffix (Name f) ".class".
Proof.
  intros [Hprefix Hrelative]%under_classes. unfold Walk_selects.
  by rewrite Hprefix, Hrelative.
Qed.

Lemma getClasslist_elem (r : zip_Reader) (content : bytes) (key : string) :
  Reader_Open r "lib/classlist" = inl content ->
  key ∈ getClasslist r
  <-> exists c, c ∈ Split (string_of_list_byte content) (ascii_of_nat 10)
                /\ key = classlist_key c.
Proof.
  intros Hopen. unfold getClasslist. rewrite Hopen.
  generalize (Split (string_of_list_byte content) (ascii_of_nat 10)). intros classes.
  assert (Hfold : forall acc : gset string,
             key ∈ foldl (fun (classSet : gset string) c => {[ classlist_key c ]} ∪ classSet)
                         acc classes
             <-> key ∈ acc \/ exists c, c ∈ classes /\ key = classlist_key c).
  { induction classes as [|c classes IH]; intros acc; cbn [foldl].
    - split; [by left|]. intros [H|(c & Hc & _)]; [done|]. by apply not_elem_of_nil in Hc.
    - rewrite IH, elem_of_union, elem_of_singleton. split.
      + intros [[->|H]|(c' & Hc' & ->)]; [right|by left|right].
        * exists c. split; [apply list_elem_of_here|done].
        * exists c'. split; [by apply list_elem_of_further|done].
      + intros [H|(c' & [->|Hc']%elem_of_cons & ->)]; [by left; right|by left; left|].
        right. by exists c'. }
  rewrite Hfold. split; [|by right]. intros [H|H]; [|done]. by apply not_elem_of_empty in H.
Qed.

(** C9. If the archive opens and every entry [Walk] selects can be read,
    [Walk] returns [nil] and has called the visitor on every selected
    entry, in archive order: the state of the visitor is the one that the
    calls alone produce, and the errors the visitor returned appear
    nowhere in the result. *)
Theorem Walk_discards_visitor_errors {S : Type} (fsys : gmap string bytes) (j : Jmod)
    (r : zip_Reader) (walk : WalkEntryFunc S) (st : S) :
  getZipReader zip_NewReader fsys (FileName j) = Ok r ->
  (forall f, f ∈ File r -> Walk_selects (getClasslist r) (useClassSet r) f = true ->
             exists b, body f = inl b) ->
  Walk zip_NewReader fsys j walk st
  = (Ok tt,
     {| FileName := FileName j; entryListOnce := entryListOnce j;
        entries := populate (File r) (entries j) |},
     foldl (visit walk) st
           (Walk_calls (FileName j) (getClasslist r) (useClassSet r) (File r))).
Proof.
  intros Hopen Hread. unfold Walk. rewrite Hopen.
  fold (useClassSet r). by rewrite (Walk_loop_readable walk _ _ _ _ Hread).
Qed.

End ArchiveProperties.

Lemma Walk_discards_visitor_errors_witness :
  Walk (fun _ => inl stray_reader) one_jmod_fs (classloader.InitJmod "m.jmod")
       failing_recorder []
  = (Ok tt,
     {| classloader.FileName := "m.jmod"; classloader.entryListOnce := false;
        classloader.entries := {[ "classesX/A.class" := "classesX/A.class";
                                  "B.class" := "classes/B.class" ]} |},
     [([x01; x02], "m.jmod+classesX/A.class"); ([x03], "m.jmod+classes/B.class")]).
Proof.
  rewrite (Walk_discards_visitor_errors (fun _ => inl stray_reader) one_jmod_fs
             (classloader.InitJmod "m.jmod") stray_reader failing_recorder []).
  - vm_compute. reflexivity.
  - vm_compute. reflexivity.
  - intros f Hf _. vm_compute in Hf.
    apply list_elem_of_In in Hf. simpl in Hf.
    destruct Hf as [<-|[<-|[]]]; eexists; reflexivity.
Defined.

(** The tests [TestJmodFile] and [TestJmodFileNoClasslist]: with the
    classlist only the listed class is visited, without it [module-info]
    is visited too. *)
Example Walk_jacobin_jmod :
  snd (Walk (fun _ => inl jacobin_reader) one_jmod_fs (InitJmod "m.jmod") recorder [])
  = [([xba; xbe], "m.jmod+classes/org/jacobin/test/Hello.class")]
  /\ snd (Walk (fun _ => inl jacobinfull_reader) one_jmod_fs (InitJmod "m.jmod") recorder [])
     = [([xca; xfe], "m.jmod+classes/module-info.class");
        ([xba; xbe], "m.jmod+classes/org/jacobin/test/Hello.class")].
Proof. split; vm_compute; reflexivity. Qed.

(** C1. An entry whose name begins with [classes] without lying under
    [classes/] is handed to the visitor: in an archive without classlist
    when its name ends in [.class], and in an archive with a classlist when
    its whole name is listed. *)
Theorem Walk_visits_entry_outside_classes :
  HasPrefix "classesX/A.class" "classes/" = false
  /\ snd (Walk (fun _ => inl stray_reader) one_jmod_fs (classloader.InitJmod "m.jmod")
               recorder [])
     = [([x01; x02], "m.jmod+classesX/A.class"); ([x03], "m.jmod+classes/B.class")]
  /\ snd (Walk (fun _ => inl stray_listed_reader) one_jmod_fs (classloader.InitJmod "m.jmod")
               recorder [])
     = [([x01; x02], "m.jmod+classesX/A.class")].
Proof. repeat split; vm_compute; reflexivity. Qed.

(** ** Loading by name *)

Section LoadProperties.

Variable zip_NewReader : bytes -> zip_Reader + error.
Variable fsys : gmap string bytes.

(** Once the guard has fired, [LoadByName] leaves the handle as it is. *)
Lemma LoadByName_once_fired (j : Jmod) (name : string) :
  entryListOnce j = true -> snd (LoadByName zip_NewReader fsys j name) = j.
Proof.
  intros Honce. unfold LoadByName. rewrite Honce.
  destruct (getZipReader _ _ _) as [r| |]; [|done..].
  destruct (entries j !! name); [|done]. by destruct (Reader_Open r s).
Qed.

(** The guard never goes back. *)
Lemma LoadByName_once_monotone (j : Jmod) (name : string) :
  entryListOnce j = true -> entryListOnce (snd (LoadByName zip_NewReader fsys j name)) = true.
Proof. intros H. by rewrite LoadByName_once_fired. Qed.

(** X26. After the guard has fired, no sequence of [LoadByName] calls
    changes the handle, whatever the files hold by then. *)
Lemma LoadByName_sequence_read_only (j : Jmod) (names : list string) :
  entryListOnce j = true ->
  foldl (run_operation zip_NewReader fsys) j (OpLoadByName <$> names) = j.
Proof.
  intros Honce. induction names as [|name names IH]; [reflexivity|].
  cbn [fmap list_fmap foldl run_operation].
  by rewrite LoadByName_once_fired.
Qed.

Lemma LoadByName_miss (j : Jmod) (r : zip_Reader) (name : string) :
  getZipReader zip_NewReader fsys (FileName j) = Ok r ->
  (if entryListOnce j then entries j else populate (File r) (entries j)) !! name = None ->
  fst (LoadByName zip_NewReader fsys j name) = Ok None.
Proof.
  intros Hopen Hmiss. unfold LoadByName. rewrite Hopen.
  destruct (entryListOnce j); cbn [entries] in *; by rewrite Hmiss.
Qed.

(** The result of the loop depends on the handles of the keys it ranges
    over only. *)
Lemma LoadClassByName_range_ext (order : list string) (name : string) :
  forall jl1 jl2 : gmap string Jmod,
    (forall k, k ∈ order -> jl1 !! k = jl2 !! k) ->
    fst (LoadClassByName_range zip_NewReader fsys order jl1 name)
    = fst (LoadClassByName_range zip_NewReader fsys order jl2 name).
Proof.
  induction order as [|k order IH]; intros jl1 jl2 Hsame; [reflexivity|].
  cbn [LoadClassByName_range].
  rewrite <- (Hsame k (list_elem_of_here _ _)).
  assert (Hrest : forall k', k' ∈ order -> jl1 !! k' = jl2 !! k').
  { intros k' Hk'. apply Hsame. by apply list_elem_of_further. }
  destruct (jl1 !! k) as [value|]; [|by apply IH].
  destruct (LoadByName zip_NewReader fsys value name) as [[[b|]| |] value']; try reflexivity.
  apply IH. intros k' Hk'. rewrite !lookup_insert. case_decide; [done|]. by apply Hrest.
Qed.

Lemma LoadClassByName_range_skip (k : string) (order : list string)
    (jl : gmap string Jmod) (name : string) :
  k ∉ order ->
  (forall j, jl !! k = Some j -> fst (LoadByName zip_NewReader fsys j name) = Ok None) ->
  fst (LoadClassByName_range zip_NewReader fsys (k :: order) jl name)
  = fst (LoadClassByName_range zip_NewReader fsys order jl name).
Proof.
  intros Hfresh Hmiss. cbn [LoadClassByName_range].
  destruct (jl !! k) as [value|] eqn:Hk; [|reflexivity].
  specialize (Hmiss value eq_refl).
  destruct (LoadByName zip_NewReader fsys value name) as [res value'].
  cbn [fst] in Hmiss. subst res.
  apply LoadClassByName_range_ext. intros k' Hk'.
  rewrite lookup_insert_ne; [done|]. intros ->. contradiction.
Qed.

(** An error of a probed handle ends the loop with that error. *)
Lemma LoadClassByName_range_error (jl : gmap string Jmod) (name : string)
    (k : string) (rest : list string) (j : Jmod) (e : error) :
  jl !! k = Some j ->
  fst (LoadByName zip_NewReader fsys j name) = Err e ->
  fst (LoadClassByName_range zip_NewReader fsys (k :: rest) jl name) = Err e.
Proof.
  intros Hk Herr. cbn [LoadClassByName_range]. rewrite Hk.
  destruct (LoadByName zip_NewReader fsys j name) as [res j'].
  cbn [fst] in Herr. by subst res.
Qed.

Lemma range_order_NoDup (jl : gmap string Jmod) (order : list string) :
  range_order jl order -> NoDup order.
Proof. unfold range_order. intros ->. apply NoDup_fst_map_to_list. Qed.

Lemma LoadClassByName_fst (order : list string) (manager : JmodManager) (name : string) :
  fst (LoadClassByName zip_NewReader fsys order manager name)
  = fst (LoadClassByName_range zip_NewReader fsys order (jmodList manager) name).
Proof.
  unfold LoadClassByName.
  by destruct (LoadClassByName_range zip_NewReader fsys order (jmodList manager) name).
Qed.

Lemma LoadClassByName_range_hit (jl : gmap string Jmod) (name : string)
    (before after : list string) (k : string) (j : Jmod) (b : bytes) :
  NoDup (before ++ k :: after) ->
  (forall k' j', k' ∈ before -> jl !! k' = Some j' ->
                 fst (LoadByName zip_NewReader fsys j' name) = Ok None) ->
  jl !! k = Some j ->
  fst (LoadByName zip_NewReader fsys j name) = Ok (Some b) ->
  fst (LoadClassByName_range zip_NewReader fsys (before ++ k :: after) jl name) = Ok (Some b).
Proof.
  induction before as [|k0 before IH]; intros Hnodup Hmiss Hk Hhit.
  - cbn [app LoadClassByName_range]. rewrite Hk.
    destruct (LoadByName zip_NewReader fsys j name) as [res j'].
    cbn [fst] in Hhit. by subst res.
  - rewrite <- app_comm_cons in Hnodup |- *.
    apply NoDup_cons in Hnodup as [Hfresh Hnodup].
    rewrite LoadClassByName_range_skip; [| done |].
    + apply IH; [done| |done..].
      intros k' j' Hk'. apply Hmiss. by apply list_elem_of_further.
    + intros j0. apply Hmiss. apply list_elem_of_here.
Qed.

Lemma LoadClassByName_range_all_miss (jl : gmap string Jmod) (name : string)
    (order : list string) :
  NoDup order ->
  (forall k j, k ∈ order -> jl !! k = Some j ->
               fst (LoadByName zip_NewReader fsys j name) = Ok None) ->
  fst (LoadClassByName_range zip_NewReader fsys order jl name) = Ok None.
Proof.
  induction order as [|k order IH]; intros Hnodup Hmiss; [reflexivity|].
  apply NoDup_cons in Hnodup as [Hfresh Hnodup].
  rewrite LoadClassByName_range_skip; [| done |].
  - apply IH; [done|]. intros k' j' Hk'. apply Hmiss. by apply list_elem_of_further.
  - intros j0. apply Hmiss. apply list_elem_of_here.
Qed.

(** C5 (amended). [LoadClassByName] probes the handles in the order the
    map is ranged over, whichever that is: it returns the bytes of the
    first handle in that order on which [LoadByName] hits, the handles
    before it being misses; it returns the absent result when every handle
    is a miss, in particular when there is none; and [LoadByName] on an
    archive that opens and has no entry for the name is the absent result,
    not an error. *)
Theorem LoadClassByName_first_hit_in_range_order (manager : JmodManager) (name : string) :
  (forall (before after : list string) (k : string) (j : Jmod) (b : bytes),
      range_order (jmodList manager) (before ++ k :: after) ->
      (forall k' j', k' ∈ before -> jmodList manager !! k' = Some j' ->
                     fst (LoadByName zip_NewReader fsys j' name) = Ok None) ->
      jmodList manager !! k = Some j ->
      fst (LoadByName zip_NewReader fsys j name) = Ok (Some b) ->
      fst (LoadClassByName zip_NewReader fsys (before ++ k :: after) manager name)
      = Ok (Some b))
  /\ (forall order : list string,
      range_order (jmodList manager) order ->
      (forall k j, k ∈ order -> jmodList manager !! k = Some j ->
                   fst (LoadByName zip_NewReader fsys j name) = Ok None) ->
      fst (LoadClassByName zip_NewReader fsys order manager name) = Ok None)
  /\ (forall (j : Jmod) (r : zip_Reader),
      getZipReader zip_NewReader fsys (FileName j) = Ok r ->
      (if entryListOnce j then entries j else populate (File r) (entries j)) !! name = None ->
      fst (LoadByName zip_NewReader fsys j name) = Ok None).
Proof.
  split; [|split].
  - intros before after k j b Horder%range_order_NoDup Hmiss Hk Hhit.
    rewrite LoadClassByName_fst. by apply (LoadClassByName_range_hit _ _ _ _ _ j).
  - intros order Horder%range_order_NoDup Hmiss.
    rewrite LoadClassByName_fst. by apply LoadClassByName_range_all_miss.
  - intros j r. apply LoadByName_miss.
Qed.

End LoadProperties.

Lemma LoadClassByName_first_hit_in_range_order_witness :
  fst (LoadClassByName two_NewReader two_fs ["b.jmod"; "a.jmod"] two_manager "X.class")
  = Ok (Some [x0b])
  /\ fst (LoadClassByName two_NewReader two_fs ["b.jmod"; "a.jmod"] two_manager "Y.class")
     = Ok None
  /\ fst (LoadByName two_NewReader two_fs (InitJmod "/jdk/jmods/a.jmod") "Y.class") = Ok None.
Proof.
  assert (Horder : range_order (jmodList two_manager) ["b.jmod"; "a.jmod"]).
  { unfold range_order. vm_compute. apply perm_swap. }
  destruct (LoadClassByName_first_hit_in_range_order two_NewReader two_fs two_manager
              "X.class") as (Hhit & _ & _).
  destruct (LoadClassByName_first_hit_in_range_order two_NewReader two_fs two_manager
              "Y.class") as (_ & Hnone & Hmiss).
  split; [|split].
  - apply (Hhit [] ["a.jmod"] "b.jmod" (InitJmod "/jdk/jmods/b.jmod") [x0b]).
    + exact Horder.
    + intros k' j' Hk'. by apply not_elem_of_nil in Hk'.
    + vm_compute. reflexivity.
    + vm_compute. reflexivity.
  - apply Hnone.
    + exact Horder.
    + intros k j Hk%list_elem_of_In Hj. simpl in Hk.
      destruct Hk as [<-|[<-|[]]]; vm_compute in Hj; simplify_eq;
        vm_compute; reflexivity.
  - apply (Hmiss (InitJmod "/jdk/jmods/a.jmod") (reader_with [x0a])).
    + vm_compute. reflexivity.
    + vm_compute. reflexivity.
Defined.

(** C5, as stated, fails: with two archives that both hold [X.class], the
    map may be ranged over with the archive stored second coming first,
    and its bytes are returned, not those of the archive stored first. *)
Lemma LoadClassByName_not_in_insertion_order :
  ~ probes_in_insertion_order two_NewReader two_fs two_tree "/jdk" "a.jmod" "X.class".
Proof.
  intros Hspec.
  specialize (Hspec two_manager ["b.jmod"; "a.jmod"]).
  assert (Hinit : InitJmodManager two_tree "/jdk" "a.jmod" = Ok two_manager).
  { vm_compute. reflexivity. }
  assert (Horder : range_order (jmodList two_manager) ["b.jmod"; "a.jmod"]).
  { unfold range_order. vm_compute. apply perm_swap. }
  specialize (Hspec Hinit Horder). vm_compute in Hspec. discriminate Hspec.
Qed.

(** C8. A [Walk] after the guarded population writes the map again: with
    the archive of [clash_reader], unchanged on disk, [LoadByName] fires
    the guard and leaves [classesX.class] mapped to the last entry of that
    class-relative name, and the [Walk] that follows maps it to the first
    one before it stops at the unreadable entry. *)
Theorem Walk_writes_entries_after_population :
  let j0 := InitJmod "m.jmod" in
  let j1 := run_operation (fun _ => inl clash_reader) one_jmod_fs j0 (OpLoadByName "Y.class") in
  let j2 := run_operation (fun _ => inl clash_reader) one_jmod_fs j1 OpWalk in
  entryListOnce j1 = true
  /\ entries j1 !! "classesX.class" = Some "classesclasses/X.class"
  /\ entries j2 !! "classesX.class" = Some "classes/classesX.class"
  /\ entries j2 <> entries j1.
Proof.
  repeat split; try (vm_compute; reflexivity).
  intros Heq.
  assert (H : entries (run_operation (fun _ => inl clash_reader) one_jmod_fs
                (run_operation (fun _ => inl clash_reader) one_jmod_fs
                   (InitJmod "m.jmod") (OpLoadByName "Y.class")) OpWalk) !! "classesX.class"
              = entries (run_operation (fun _ => inl clash_reader) one_jmod_fs
                   (InitJmod "m.jmod") (OpLoadByName "Y.class")) !! "classesX.class")
    by (by rewrite Heq).
  vm_compute in H. discriminate H.
Qed.

(** ** Initializing the manager *)

Lemma rev_app_append (s t acc : string) :
  String.rev_app (s +:+ t) acc = String.rev_app t (String.rev_app s acc).
Proof. revert acc. induction s as [|c s IH]; intros acc; [reflexivity|]. cbn. apply IH. Qed.

Lemma jmods_is_no_jmod (javaHome : string) :
  HasSuffix (javaHome +:+ PathSeparator +:+ "jmods") ".jmod" = false.
Proof.
  unfold HasSuffix, String.rev, PathSeparator. rewrite rev_app_append. reflexivity.
Qed.

Lemma InitJmodManager_visit_no_base (baseName : string) (paths : list string) :
  (forall path, path ∈ paths -> HasSuffix path ".jmod" = true ->
                filepath_Base path <> baseName) ->
  forall acc, snd acc = None -> snd (foldl (InitJmodManager_visit baseName) acc paths) = None.
Proof.
  induction paths as [|path paths IH]; intros Hno acc Hacc; [done|].
  cbn [foldl]. apply IH.
  - intros q Hq. apply Hno. by apply list_elem_of_further.
  - unfold InitJmodManager_visit.
    destruct (HasSuffix path ".jmod") eqn:Hsuffix; cbn [negb]; [|done].
    destruct (String.eqb_spec (filepath_Base path) baseName) as [Heq|Hne]; [|done].
    exfalso. by apply (Hno path (list_elem_of_here _ _) Hsuffix).
Qed.

(** C6 (amended). [InitJmodManager] answers a missing directory and a
    directory without the base archive alike, with the error "Base JMOD
    with name <m> not found in <p>/jmods"; the message "JAVA_HOME (<p>)
    does not exist" is never its answer. *)
Theorem InitJmodManager_base_not_found (tree : gmap string (list string))
    (javaHome baseName : string) :
  (tree !! (javaHome +:+ PathSeparator +:+ "jmods") = None ->
   InitJmodManager tree javaHome baseName = Err (base_not_found baseName javaHome))
  /\ (forall below,
      tree !! (javaHome +:+ PathSeparator +:+ "jmods") = Some below ->
      (forall path, path ∈ below -> HasSuffix path ".jmod" = true ->
                    filepath_Base path <> baseName) ->
      InitJmodManager tree javaHome baseName = Err (base_not_found baseName javaHome))
  /\ InitJmodManager tree javaHome baseName <> Err (java_home_missing javaHome).
Proof.
  assert (Hno : forall paths,
             (forall path, path ∈ paths -> HasSuffix path ".jmod" = true ->
                           filepath_Base path <> baseName) ->
             filepath_Walk tree (javaHome +:+ PathSeparator +:+ "jmods")
             = (javaHome +:+ PathSeparator +:+ "jmods") :: paths ->
             InitJmodManager tree javaHome baseName = Err (base_not_found baseName javaHome)).
  { intros paths Hpaths Hwalk. unfold InitJmodManager. rewrite Hwalk.
    rewrite InitJmodManager_visit_no_base; [reflexivity| |reflexivity].
    intros path [->|Hin]%elem_of_cons Hsuffix.
    - by rewrite jmods_is_no_jmod in Hsuffix.
    - by apply Hpaths. }
  split; [|split].
  - intros Hmissing. apply (Hno []).
    + intros path Hin. by apply not_elem_of_nil in Hin.
    + unfold filepath_Walk. by rewrite Hmissing.
  - intros below Hbelow Hnone. apply (Hno below Hnone).
    unfold filepath_Walk. by rewrite Hbelow.
  - unfold InitJmodManager.
    destruct (snd (foldl _ _ _)); [discriminate|].
    unfold java_home_missing. intros Heq. injection Heq as Heq. discriminate Heq.
Qed.

Lemma InitJmodManager_base_not_found_witness :
  InitJmodManager ∅ "gherkin" "java.base.jmod"
  = Err (errors_New "Base JMOD with name java.base.jmod not found in gherkin/jmods")
  /\ InitJmodManager two_tree "/jdk" "java.base.jmod"
     = Err (errors_New "Base JMOD with name java.base.jmod not found in /jdk/jmods").
Proof.
  split.
  - apply (InitJmodManager_base_not_found ∅ "gherkin" "java.base.jmod").
    apply lookup_empty.
  - refine (proj1 (proj2 (InitJmodManager_base_not_found two_tree "/jdk" "java.base.jmod"))
              ["/jdk/jmods/a.jmod"; "/jdk/jmods/b.jmod"] _ _).
    + vm_compute. reflexivity.
    + intros path Hin%list_elem_of_In _. simpl in Hin.
      destruct Hin as [<-|[<-|[]]]; vm_compute; discriminate.
Defined.

(** C6, as stated, fails: for a Java home that does not exist the error
    of [InitJmodManager] is not the configuration error. *)
Lemma InitJmodManager_missing_home_not_config_error :
  ~ missing_home_is_config_error ∅ "gherkin" "java.base.jmod".
Proof.
  intros Hspec. unfold missing_home_is_config_error in Hspec.
  assert (Hmissing : forall dir, HasPrefix dir "gherkin" = true ->
                                 (∅ : gmap string (list string)) !! dir = None).
  { intros dir _. apply lookup_empty. }
  specialize (Hspec Hmissing). vm_compute in Hspec. discriminate Hspec.
Qed.

(** ** Starting the JVM *)

Section JVMrunProperties.

Import jvm.

Variable shutdown_Exit : ExitStatus -> Z.
Variable InitGlobals : string -> Globals.
Variable GetMainClassFromJar : string -> string + error.
Variable LoadClassFromJar : string -> string -> string + error.
Variable LoadClassFromFile : string -> string + error.
Variable StartExec : string -> Globals -> option error.
Variable HandleCli_options : list string -> Globals -> Globals.

Local Abbreviation run :=
  (JVMrun shutdown_Exit InitGlobals GetMainClassFromJar LoadClassFromJar
          LoadClassFromFile StartExec HandleCli_options).
Local Abbreviation after_cli := (Global_after_cli InitGlobals HandleCli_options).

(** C7. When the command line does not ask for an immediate exit: an
    error of [GetMainClassFromJar], [LoadClassFromJar] or
    [LoadClassFromFile] makes [JVMrun] return the exit for JVM_EXCEPTION;
    a JAR without main class makes it log "no main manifest attribute, in
    <jar>" and return the exit for APP_EXCEPTION; so do a failing
    [StartExec] and a command line that names neither JAR nor class. *)
Theorem JVMrun_exit_reasons (osArgs : list string) (globalRef : Globals) :
  ExitNow (after_cli osArgs globalRef) = false ->
  let Global := after_cli osArgs globalRef in
  let jar := StartingJar Global in
  (jar <> "" ->
     (forall e, GetMainClassFromJar jar = inr e ->
                snd (run osArgs globalRef) = shutdown_Exit JVM_EXCEPTION)
     /\ (GetMainClassFromJar jar = inl "" ->
         snd (run osArgs globalRef) = shutdown_Exit APP_EXCEPTION
         /\ last (fst (run osArgs globalRef))
            = Some (Log ("no main manifest attribute, in " +:+ jar) INFO))
     /\ (forall manifestClass e,
           manifestClass <> "" ->
           GetMainClassFromJar jar = inl manifestClass ->
           LoadClassFromJar manifestClass jar = inr e ->
           snd (run osArgs globalRef) = shutdown_Exit JVM_EXCEPTION)
     /\ (forall manifestClass mainClass e,
           manifestClass <> "" ->
           GetMainClassFromJar jar = inl manifestClass ->
           LoadClassFromJar manifestClass jar = inl mainClass ->
           StartExec mainClass Global = Some e ->
           snd (run osArgs globalRef) = shutdown_Exit APP_EXCEPTION))
  /\ (jar = "" -> StartingClass Global <> "" ->
      (forall e, LoadClassFromFile (StartingClass Global) = inr e ->
                 snd (run osArgs globalRef) = shutdown_Exit JVM_EXCEPTION)
      /\ (forall mainClass e,
            LoadClassFromFile (StartingClass Global) = inl mainClass ->
            StartExec mainClass Global = Some e ->
            snd (run osArgs globalRef) = shutdown_Exit APP_EXCEPTION))
  /\ (jar = "" -> StartingClass Global = "" ->
      snd (run osArgs globalRef) = shutdown_Exit APP_EXCEPTION).
Proof.
  intros Hnow Global jar. subst Global jar.
  unfold Global_after_cli, JVMrun, HandleCli in *.
  set (Global := HandleCli_options osArgs _) in *.
  rewrite Hnow.
  split; [|split].
  - intros Hjar. apply String.eqb_neq in Hjar. rewrite Hjar. cbn [negb].
    split; [|split; [|split]].
    + intros e ->. reflexivity.
    + intros ->. cbn [String.eqb fst snd]. split; [reflexivity|]. by rewrite last_snoc.
    + intros manifestClass e Hclass%String.eqb_neq -> Hload.
      rewrite Hclass, Hload. reflexivity.
    + intros manifestClass mainClass e Hclass%String.eqb_neq -> Hload Hexec.
      rewrite Hclass, Hload, Hexec. reflexivity.
  - intros -> Hclass%String.eqb_neq. cbn [String.eqb negb]. rewrite Hclass. cbn [negb].
    split.
    + intros e ->. reflexivity.
    + intros mainClass e -> ->. reflexivity.
  - intros -> ->. reflexivity.
Qed.

End JVMrunProperties.

Lemma JVMrun_exit_reasons_witness :
  jvm.JVMrun sample_Exit (fun _ => sample_globals "" "") sample_GetMainClassFromJar
         sample_LoadClassFromJar sample_LoadClassFromFile sample_StartExec
         (fun _ g => g) ["jacobin"; "-jar"; "app.jar"] (sample_globals "app.jar" "")
  = ([jvm.Log "running program: test" jvm.FINE;
      jvm.Log "no main manifest attribute, in app.jar" jvm.INFO], 1%Z)
  /\ snd (jvm.JVMrun sample_Exit (fun _ => sample_globals "" "") sample_GetMainClassFromJar
            sample_LoadClassFromJar sample_LoadClassFromFile sample_StartExec
            (fun _ g => g) ["jacobin"; "-jar"; "bad.jar"] (sample_globals "bad.jar" ""))
     = 2%Z
  /\ snd (jvm.JVMrun sample_Exit (fun _ => sample_globals "" "") sample_GetMainClassFromJar
            sample_LoadClassFromJar sample_LoadClassFromFile sample_StartExec
            (fun _ g => g) ["jacobin"; "No.class"] (sample_globals "" "No.class"))
     = 2%Z
  /\ snd (jvm.JVMrun sample_Exit (fun _ => sample_globals "" "") sample_GetMainClassFromJar
            sample_LoadClassFromJar sample_LoadClassFromFile sample_StartExec
            (fun _ g => g) ["jacobin"] (sample_globals "" ""))
     = 1%Z.
Proof.
  pose proof (JVMrun_exit_reasons sample_Exit (fun _ => sample_globals "" "")
                sample_GetMainClassFromJar sample_LoadClassFromJar sample_LoadClassFromFile
                sample_StartExec (fun _ g => g)) as H.
  split; [|split; [|split]].
  - destruct (H ["jacobin"; "-jar"; "app.jar"] (sample_globals "app.jar" "") eq_refl)
      as (Hjar & _ & _).
    destruct Hjar as (_ & Hmanifest & _); [discriminate|].
    destruct (Hmanifest eq_refl) as [_ _]. reflexivity.
  - destruct (H ["jacobin"; "-jar"; "bad.jar"] (sample_globals "bad.jar" "") eq_refl)
      as (Hjar & _ & _).
    destruct Hjar as (Herr & _); [discriminate|].
    apply (Herr (errors_New "Invalid or corrupt jarfile")). reflexivity.
  - destruct (H ["jacobin"; "No.class"] (sample_globals "" "No.class") eq_refl)
      as (_ & Hclass & _).
    destruct Hclass as (Herr & _); [reflexivity|discriminate|].
    apply (Herr (errors_New "no such file")). reflexivity.
  - destruct (H ["jacobin"] (sample_globals "" "") eq_refl) as (_ & _ & Hnone).
    apply Hnone; reflexivity.
Defined.

(** ** The instrumentation registry *)

Section RegistryProperties.

Import management.

Variable any : Type.

(** C10. [RegisterProvider] returns the error "Provider with name <n>
    already registered" exactly when a provider is registered under the
    name of the given one, and then changes nothing; otherwise it returns
    [nil] and the registry is the old one with the provider stored under
    its name. *)
Theorem RegisterProvider_duplicate_iff (provider : InstrumentationProvider any)
    (st : state any) :
  (is_Some (instrumentationProviders any st !! Name any provider) ->
   RegisterProvider any provider st = (Some (duplicate_provider (Name any provider)), st))
  /\ (instrumentationProviders any st !! Name any provider = None ->
      fst (RegisterProvider any provider st) = None
      /\ instrumentationProviders any (snd (RegisterProvider any provider st))
         = <[Name any provider := provider]> (instrumentationProviders any st))
  /\ (fst (RegisterProvider any provider st) = Some (duplicate_provider (Name any provider))
      <-> is_Some (instrumentationProviders any st !! Name any provider))
  /\ (fst (RegisterProvider any provider st) = None
      <-> instrumentationProviders any st !! Name any provider = None).
Proof.
  unfold RegisterProvider, duplicate_provider.
  destruct (instrumentationProviders any st !! Name any provider) as [old|] eqn:Hold;
    cbn [fst snd instrumentationProviders].
  - repeat split; try done; eauto.
  - repeat split; try done; by intros ?%is_Some_None.
Qed.

End RegistryProperties.

Lemma RegisterProvider_duplicate_iff_witness :
  management.RegisterProvider unit (sample_provider "gc") sample_registry
  = (Some (errors_New "Provider with name gc already registered"), sample_registry)
  /\ fst (management.RegisterProvider unit (sample_provider "heap") sample_registry) = None
  /\ management.instrumentationProviders unit
       (snd (management.RegisterProvider unit (sample_provider "heap") sample_registry))
     = {[ "gc" := sample_provider "gc"; "heap" := sample_provider "heap" ]}.
Proof.
  destruct (RegisterProvider_duplicate_iff unit (sample_provider "gc") sample_registry)
    as (Hdup & _).
  destruct (RegisterProvider_duplicate_iff unit (sample_provider "heap") sample_registry)
    as (_ & Hnew & _).
  split.
  - apply Hdup. vm_compute. eauto.
  - destruct Hnew as [Hnil Hreg]; [vm_compute; reflexivity|].
    split; [exact Hnil|]. rewrite Hreg. apply map_eq. intros k.
    vm_compute. reflexivity.
Defined.

(** ** Parsing and normalizing a class *)

Section ClassProperties.

Import classfile.

Variable parse_body : bytes -> ParsedClass + error.
Variable formatCheck : ParsedClass -> option error.

Lemma parseMagicNumber_invalid (rawBytes : bytes) :
  take 4 rawBytes <> [xca; xfe; xba; xbe] ->
  parseMagicNumber rawBytes = Some (errors_New "invalid magic number").
Proof.
  intros Hmagic. unfold parseMagicNumber.
  destruct rawBytes as [|b0 [|b1 [|b2 [|b3 rest]]]]; try reflexivity.
  destruct (Byte.eqb b0 xca) eqn:H0; [|reflexivity].
  destruct (Byte.eqb b1 xfe) eqn:H1; [|reflexivity].
  destruct (Byte.eqb b2 xba) eqn:H2; [|reflexivity].
  destruct (Byte.eqb b3 xbe) eqn:H3; [|reflexivity].
  apply byte_dec_bl in H0, H1, H2, H3. subst. exfalso. by apply Hmagic.
Qed.

(** C3. Bytes that do not begin with [CA FE BA BE] are not parsed: the
    error's message contains "invalid magic number", [ParseAndPostClass]
    returns that error, and the method area is left as it was. *)
Theorem parse_invalid_magic_number (loader filename : string) (rawBytes : bytes)
    (Classes : gmap string Klass) :
  take 4 rawBytes <> [xca; xfe; xba; xbe] ->
  exists e,
    parse parse_body rawBytes = inr e
    /\ Contains (Error e) "invalid magic number" = true
    /\ ParseAndPostClass parse_body formatCheck loader filename rawBytes Classes
       = (Err e, Classes).
Proof.
  intros Hmagic. exists (errors_New "invalid magic number").
  unfold ParseAndPostClass, parse. rewrite (parseMagicNumber_invalid _ Hmagic).
  repeat split.
Qed.

(** *** The normalizer *)

Lemma convert_entry_string (klass : ParsedClass) (e : cpEntry) :
  string_const_ok klass e = true ->
  entryType e = StringConst ->
  exists sce target,
    stringRefs klass !! slot e = Some sce
    /\ cpIndex klass !! index sce = Some target
    /\ entryType target = UTF8
    /\ convert_entry klass e = Ok {| Type_ := UTF8; Slot := slot target |}.
Proof.
  unfold string_const_ok, convert_entry. intros Hok Hs. rewrite Hs in Hok |- *.
  destruct (stringRefs klass !! slot e) as [sce|] eqn:Hsce; [|discriminate].
  destruct (cpIndex klass !! index sce) as [target|] eqn:Htarget; [|discriminate].
  apply bool_decide_eq_true in Hok. exists sce, target. repeat split; done.
Qed.

Lemma convert_entry_other (klass : ParsedClass) (e : cpEntry) :
  entryType e <> StringConst ->
  convert_entry klass e = Ok {| Type_ := entryType e; Slot := slot e |}.
Proof. unfold convert_entry. by destruct (entryType e). Qed.

Lemma convert_entry_total (klass : ParsedClass) (e : cpEntry) :
  string_const_ok klass e = true -> exists e', convert_entry klass e = Ok e'.
Proof.
  intros Hok. destruct (decide (entryType e = StringConst)) as [Hs|Hs].
  - destruct (convert_entry_string klass e Hok Hs) as (? & ? & _ & _ & _ & ->). eauto.
  - rewrite (convert_entry_other klass e Hs). eauto.
Qed.

Lemma convert_pool_lookup (klass : ParsedClass) (pool : list cpEntry) :
  forallb (string_const_ok klass) pool = true ->
  exists pool',
    convert_pool klass pool = Ok pool'
    /\ length pool' = length pool
    /\ forall i e, pool !! i = Some e ->
                   exists e', pool' !! i = Some e' /\ convert_entry klass e = Ok e'.
Proof.
  induction pool as [|e pool IH]; intros Hok.
  - exists []. by repeat split.
  - cbn [forallb] in Hok. apply andb_prop in Hok as [He Hpool].
    destruct (IH Hpool) as (pool' & Hconv & Hlen & Hlook).
    destruct (convert_entry_total klass e He) as [e' He'].
    exists (e' :: pool'). cbn [convert_pool]. unfold mbind, outcome_bind.
    rewrite He', Hconv. repeat split; [by cbn; rewrite Hlen|].
    intros [|i] e0 Hi; cbn in Hi |- *.
    + simplify_eq. eauto.
    + by apply Hlook.
Qed.

Lemma string_refs_valid_lookup (klass : ParsedClass) (i : nat) (e : cpEntry) :
  string_refs_valid klass = true -> cpIndex klass !! i = Some e ->
  string_const_ok klass e = true.
Proof.
  unfold string_refs_valid. rewrite forallb_forall. intros Hall Hi.
  apply Hall, list_elem_of_In, list_elem_of_lookup. eauto.
Qed.

(** C4. On a parsed class whose string-constants reference UTF8 entries,
    [convertToPostableClass] returns a class whose pool has, in place of
    every string-constant, a UTF8 entry with the slot of the referenced
    UTF8 entry, every other entry being carried across; and every pool
    index stands for the same string before and after. *)
Theorem convertToPostableClass_string_constants (klass : ParsedClass) :
  string_refs_valid klass = true ->
  exists postable,
    convertToPostableClass klass = Ok postable
    /\ length (CpIndex (CP postable)) = length (cpIndex klass)
    /\ (forall i e,
          cpIndex klass !! i = Some e -> entryType e = StringConst ->
          exists sce target,
            stringRefs klass !! slot e = Some sce
            /\ cpIndex klass !! index sce = Some target
            /\ entryType target = UTF8
            /\ CpIndex (CP postable) !! i = Some {| Type_ := UTF8; Slot := slot target |})
    /\ (forall i e,
          cpIndex klass !! i = Some e -> entryType e <> StringConst ->
          CpIndex (CP postable) !! i = Some {| Type_ := entryType e; Slot := slot e |})
    /\ (forall i, resolved_postable postable i = resolved_parsed klass i).
Proof.
  intros Hvalid.
  destruct (convert_pool_lookup klass (cpIndex klass) Hvalid) as (pool & Hconv & Hlen & Hlook).
  exists {| Name := className klass;
            CP := {| CpIndex := pool; Utf8Refs := content <$> utf8Refs klass |} |}.
  unfold convertToPostableClass, mbind, outcome_bind. rewrite Hconv.
  cbn [CP CpIndex Utf8Refs].
  assert (Hstring : forall i e,
             cpIndex klass !! i = Some e -> entryType e = StringConst ->
             exists sce target,
               stringRefs klass !! slot e = Some sce
               /\ cpIndex klass !! index sce = Some target
               /\ entryType target = UTF8
               /\ pool !! i = Some {| Type_ := UTF8; Slot := slot target |}).
  { intros i e Hi Hs.
    destruct (convert_entry_string klass e (string_refs_valid_lookup klass i e Hvalid Hi) Hs)
      as (sce & target & Hsce & Htarget & Hutf8 & Hentry).
    destruct (Hlook i e Hi) as (e' & He' & Hconv'). exists sce, target.
    repeat split; try done. rewrite He'. congruence. }
  assert (Hother : forall i e,
             cpIndex klass !! i = Some e -> entryType e <> StringConst ->
             pool !! i = Some {| Type_ := entryType e; Slot := slot e |}).
  { intros i e Hi Hs. destruct (Hlook i e Hi) as (e' & He' & Hconv').
    rewrite (convert_entry_other klass e Hs) in Hconv'. congruence. }
  repeat split; try done.
  intros i. unfold resolved_postable, resolved_parsed. cbn [CP CpIndex Utf8Refs].
  destruct (cpIndex klass !! i) as [e|] eqn:Hi; cbn.
  - destruct (decide (entryType e = StringConst)) as [Hs|Hs].
    + destruct (Hstring i e Hi Hs) as (sce & target & Hsce & Htarget & Hutf8 & ->).
      rewrite Hs. cbn. rewrite Hsce. cbn. rewrite Htarget. cbn. rewrite Hutf8.
      by rewrite list_lookup_fmap.
    + rewrite (Hother i e Hi Hs). cbn.
      destruct (entryType e); try done. by rewrite list_lookup_fmap.
  - apply lookup_ge_None in Hi. rewrite <- Hlen in Hi. apply lookup_ge_None in Hi.
    by rewrite Hi.
Qed.

End ClassProperties.

Lemma parse_invalid_magic_number_witness :
  exists e,
    classfile.parse (fun _ => inr (errors_New "unexpected end of class")) [xcb; xfe; xba; xbe]
    = inr e
    /\ Contains (Error e) "invalid magic number" = true
    /\ classfile.ParseAndPostClass (fun _ => inr (errors_New "unexpected end of class"))
         (fun _ => None) "bootstrap" "Hello2" [xcb; xfe; xba; xbe] ∅
       = (Err e, ∅).
Proof.
  apply (parse_invalid_magic_number (fun _ => inr (errors_New "unexpected end of class"))
           (fun _ => None) "bootstrap" "Hello2" [xcb; xfe; xba; xbe] ∅).
  vm_compute. discriminate.
Defined.

Lemma convertToPostableClass_string_constants_witness :
  exists postable,
    classfile.convertToPostableClass greeting_klass = Ok postable
    /\ classfile.resolved_postable postable 1 = Some "Hello string"
    /\ classfile.resolved_parsed greeting_klass 1 = Some "Hello string".
Proof.
  destruct (convertToPostableClass_string_constants greeting_klass eq_refl)
    as (postable & Hconv & _ & _ & _ & Hsame).
  exists postable. split; [exact Hconv|]. rewrite Hsame. split; reflexivity.
Defined.

(** The class of the test [TestConvertToPostableClassStringRefs]: one UTF8
    string, and a UTF8 entry at pool index 1. *)
Example convertToPostableClass_test_klass :
  exists postable,
    classfile.convertToPostableClass test_klass = Ok postable
    /\ length (classfile.Utf8Refs (classfile.CP postable)) = 1
    /\ classfile.Type_ <$> classfile.CpIndex (classfile.CP postable) !! 1
       = Some classfile.UTF8.
Proof. eexists. repeat split. Qed.

(** * Further properties of the code *)

(** ** Byte strings *)

Lemma string_app_cons (c : ascii) (s t : string) : String c s +:+ t = String c (s +:+ t).
Proof. reflexivity. Qed.

Lemma string_app_assoc (s t u : string) : (s +:+ t) +:+ u = s +:+ (t +:+ u).
Proof.
  induction s as [|c s IH]; [reflexivity|].
  rewrite !string_app_cons. f_equal. exact IH.
Qed.

Lemma string_app_nil_r (s : string) : s +:+ "" = s.
Proof.
  induction s as [|c s IH]; [reflexivity|].
  rewrite string_app_cons. f_equal. exact IH.
Qed.

Lemma rev_app_spec (s acc : string) : String.rev_app s acc = String.rev s +:+ acc.
Proof.
  unfold String.rev. revert acc.
  induction s as [|c s IH]; intros acc; [reflexivity|].
  cbn [String.rev_app]. rewrite (IH (String c "")), IH, string_app_assoc. reflexivity.
Qed.

Lemma rev_append (s t : string) : String.rev (s +:+ t) = String.rev t +:+ String.rev s.
Proof.
  unfold String.rev at 1. rewrite rev_app_append, rev_app_spec. reflexivity.
Qed.

Lemma rev_cons (c : ascii) (s : string) :
  String.rev (String c s) = String.rev s +:+ String c "".
Proof. unfold String.rev at 1. cbn [String.rev_app]. apply rev_app_spec. Qed.

Lemma rev_involutive (s : string) : String.rev (String.rev s) = s.
Proof.
  induction s as [|c s IH]; [reflexivity|].
  rewrite rev_cons, rev_append, IH. reflexivity.
Qed.

Lemma HasPrefix_nil (s : string) : HasPrefix s "" = true.
Proof. by destruct s. Qed.

Lemma HasPrefix_append (p s : string) : HasPrefix (p +:+ s) p = true.
Proof.
  induction p as [|c p IH]; [apply HasPrefix_nil|].
  rewrite string_app_cons. cbn [HasPrefix]. by rewrite Ascii.eqb_refl.
Qed.

Lemma HasPrefix_split (s p : string) :
  HasPrefix s p = true -> s = p +:+ string_drop (String.length p) s.
Proof.
  revert s. induction p as [|c p IH]; intros s H; [reflexivity|].
  destruct s as [|d s]; [discriminate H|].
  cbn [HasPrefix String.length string_drop] in H |- *.
  destruct (Ascii.eqb_spec d c) as [->|]; [|discriminate H].
  rewrite string_app_cons. f_equal. by apply IH.
Qed.

Lemma HasSuffix_append (s suffix : string) : HasSuffix (s +:+ suffix) suffix = true.
Proof. unfold HasSuffix. rewrite rev_append. apply HasPrefix_append. Qed.

(** ** More on walking an archive *)

(** X1. A carriage return at the end of a classlist line does not change
    the key the line stands for: however many there are, they are all
    trimmed before [.class] is appended. *)
Theorem classlist_key_trailing_CR (c : string) :
  classlist_key (c +:+ CR) = classlist_key c.
Proof.
  unfold classlist_key. f_equal.
  rewrite HasSuffix_append. cbn [orb].
  unfold TrimRight, HasSuffix. rewrite rev_append.
  change (String.rev CR) with CR. change (String.rev LF) with LF.
  change (CR +:+ String.rev c) with (String (ascii_of_nat 13) (String.rev c)).
  change (TrimLeft (String (ascii_of_nat 13) (String.rev c)) (CR +:+ LF))
    with (TrimLeft (String.rev c) (CR +:+ LF)).
  destruct (String.rev c) as [|a t] eqn:Hrev.
  - cbn. rewrite <- (rev_involutive c), Hrev. reflexivity.
  - unfold CR, LF. cbn [HasPrefix TrimLeft in_cutset].
    change (String (ascii_of_nat 13) "" +:+ String (ascii_of_nat 10) "")
      with (String (ascii_of_nat 13) (String (ascii_of_nat 10) "")).
    cbn [in_cutset]. rewrite !HasPrefix_nil.
    destruct (Ascii.eqb a (ascii_of_nat 13)); [reflexivity|].
    destruct (Ascii.eqb a (ascii_of_nat 10)); [reflexivity|].
    cbn [orb]. rewrite <- Hrev. apply rev_involutive.
Qed.

Lemma Split_nonempty (s : string) (sep : ascii) : Split s sep <> [].
Proof.
  destruct s as [|c s]; [discriminate|]. cbn [Split].
  destruct (Ascii.eqb c sep); [discriminate|]. by destruct (Split s sep).
Qed.

Lemma useClassSet_readable (r : zip_Reader) (content : bytes) :
  Reader_Open r "lib/classlist" = inl content -> useClassSet r = true.
Proof.
  intros Hopen. unfold useClassSet. apply Nat.ltb_lt.
  destruct (Split (string_of_list_byte content) (ascii_of_nat 10)) as [|c classes] eqn:Hsplit.
  { by apply Split_nonempty in Hsplit. }
  assert (Hin : classlist_key c ∈ getClasslist r).
  { apply (getClasslist_elem r content _ Hopen). exists c.
    rewrite Hsplit. split; [apply list_elem_of_here|reflexivity]. }
  destruct (size (getClasslist r)) as [|n] eqn:Hsize; [|lia].
  apply size_empty_iff in Hsize. set_solver.
Qed.

Lemma useClassSet_unreadable (r : zip_Reader) (e : error) :
  Reader_Open r "lib/classlist" = inr e -> getClasslist r = ∅ /\ useClassSet r = false.
Proof.
  intros Hopen. unfold useClassSet, getClasslist. rewrite Hopen. split; reflexivity.
Qed.

(** X2. A classlist that can be read always switches the filter on, even
    when it is empty; one that cannot be read leaves the set empty and the
    filter off. *)
Theorem getClasslist_filter_on_iff_readable (r : zip_Reader) :
  (forall content, Reader_Open r "lib/classlist" = inl content -> useClassSet r = true)
  /\ (forall e, Reader_Open r "lib/classlist" = inr e ->
                getClasslist r = ∅ /\ useClassSet r = false).
Proof. split; [apply useClassSet_readable|apply useClassSet_unreadable]. Qed.

Lemma Walk_calls_app (fileName : string) (classSet : gset string) (use : bool)
    (files1 files2 : list zip_File) :
  Walk_calls fileName classSet use (files1 ++ files2)
  = Walk_calls fileName classSet use files1 ++ Walk_calls fileName classSet use files2.
Proof. apply omap_app. Qed.

Lemma populate_app (files1 files2 : list zip_File) (ents : gmap string string) :
  populate (files1 ++ files2) ents = populate files2 (populate files1 ents).
Proof. apply foldl_app. Qed.

(** What the loop of [Walk] does up to the first selected entry that
    cannot be read. *)
Lemma Walk_loop_stops {S : Type} (walk : WalkEntryFunc S) (fileName : string)
    (classSet : gset string) (use : bool) (before after : list zip_File)
    (f : zip_File) (e : error) :
  (forall g, g ∈ before -> Walk_selects classSet use g = true -> exists b, body g = inl b) ->
  Walk_selects classSet use f = true ->
  body f = inr e ->
  forall (ents : gmap string string) (st : S),
    Walk_loop walk fileName classSet use (before ++ f :: after) ents st
    = (Some e, populate (before ++ [f]) ents,
       foldl (visit walk) st (Walk_calls fileName classSet use before)).
Proof.
  intros Hread Hsel Hbody. induction before as [|g before IH]; intros ents st.
  - cbn [app]. rewrite populate_cons. cbn [Walk_loop Walk_calls omap foldl populate].
    unfold Walk_selects in Hsel. apply andb_prop in Hsel as [Hprefix Hfilter].
    rewrite Hprefix. cbn [negb]. rewrite Hbody.
    destruct use; rewrite Hfilter; reflexivity.
  - assert (Hrest : forall h, h ∈ before -> Walk_selects classSet use h = true ->
                              exists b, body h = inl b).
    { intros h Hh. apply Hread. by apply list_elem_of_further. }
    specialize (IH Hrest).
    pose proof (Hread g (list_elem_of_here _ _)) as Hg.
    rewrite <- !app_comm_cons, populate_cons, Walk_calls_cons. cbn [Walk_loop].
    unfold Walk_call. unfold Walk_selects in Hg |- *.
    destruct (HasPrefix (Name g) "classes"); cbn [negb andb] in Hg |- *; [|apply IH].
    destruct use.
    + destruct (bool_decide _); cbn [negb]; [|apply IH].
      destruct (Hg eq_refl) as [b ->]. cbn [foldl]. apply IH.
    + destruct (HasSuffix (Name g) ".class"); cbn [negb]; [|apply IH].
      destruct (Hg eq_refl) as [b ->]. cbn [foldl]. apply IH.
Qed.

Lemma foldl_visit_recorder (calls st : list (bytes * string)) :
  foldl (visit recorder) st calls = st ++ calls.
Proof.
  revert st. induction calls as [|call calls IH]; intros st.
  - by rewrite app_nil_r.
  - cbn [foldl]. rewrite IH. unfold visit, recorder. cbn [fst snd].
    destruct call as [b id]. by rewrite <- app_assoc.
Qed.

(** One turn of the loop of [Walk], by whether the entry is selected. *)
Lemma Walk_loop_cons {S : Type} (walk : WalkEntryFunc S) (fileName : string)
    (classSet : gset string) (use : bool) (f : zip_File) (files : list zip_File)
    (ents : gmap string string) (st : S) :
  Walk_loop walk fileName classSet use (f :: files) ents st
  = if Walk_selects classSet use f
    then match body f with
         | inr e => (Some e, populate [f] ents, st)
         | inl b =>
             Walk_loop walk fileName classSet use files (populate [f] ents)
                       (fst (walk b (fileName +:+ "+" +:+ Name f) st))
         end
    else Walk_loop walk fileName classSet use files (populate [f] ents) st.
Proof.
  cbn [Walk_loop populate foldl]. unfold Walk_selects.
  destruct (HasPrefix (Name f) "classes"); cbn [negb andb]; [|reflexivity].
  destruct use.
  - by destruct (bool_decide _).
  - by destruct (HasSuffix (Name f) ".class").
Qed.

(** Whether the loop of [Walk] ends or returns early, the visitor has been
    called on the selected entries of an initial part of the archive. *)
Lemma Walk_loop_visited_prefix {S : Type} (walk : WalkEntryFunc S) (fileName : string)
    (classSet : gset string) (use : bool) (files : list zip_File) :
  forall (ents : gmap string string) (st : S),
    exists visited rest,
      files = visited ++ rest
      /\ snd (Walk_loop walk fileName classSet use files ents st)
         = foldl (visit walk) st (Walk_calls fileName classSet use visited).
Proof.
  induction files as [|f files IH]; intros ents st.
  - exists [], []. split; reflexivity.
  - rewrite Walk_loop_cons.
    destruct (Walk_selects classSet use f) eqn:Hsel; [destruct (body f) as [b|e] eqn:Hbody|].
    + destruct (IH (populate [f] ents) (fst (walk b (fileName +:+ "+" +:+ Name f) st)))
        as (visited & rest & -> & Hst).
      exists (f :: visited), rest. split; [reflexivity|].
      rewrite Hst, Walk_calls_cons. unfold Walk_call. by rewrite Hsel, Hbody.
    + exists [], (f :: files). split; reflexivity.
    + destruct (IH (populate [f] ents) st) as (visited & rest & -> & Hst).
      exists (f :: visited), rest. split; [reflexivity|].
      rewrite Hst, Walk_calls_cons. unfold Walk_call. by rewrite Hsel.
Qed.

Section FurtherArchiveProperties.

Variable zip_NewReader : bytes -> zip_Reader + error.
Variable fsys : gmap string bytes.

(** X3. When the archive opens, [Walk] calls the visitor on entries of
    the archive only: each call passes the bytes of an entry whose name
    begins with [classes], under the identifier made of the file name, a
    plus sign and the entry's name; without a readable classlist the name
    ends in [.class], with one the class-relative name is the key of a
    classlist line. This holds also when [Walk] stops at an unreadable
    entry. *)
Theorem Walk_calls_only_selected_entries (j : Jmod) (r : zip_Reader)
    (b : bytes) (id : string) :
  getZipReader zip_NewReader fsys (FileName j) = Ok r ->
  (b, id) ∈ snd (Walk zip_NewReader fsys j recorder []) ->
  exists f,
    f ∈ File r
    /\ body f = inl b
    /\ id = FileName j +:+ "+" +:+ Name f
    /\ HasPrefix (Name f) "classes" = true
    /\ (forall e, Reader_Open r "lib/classlist" = inr e ->
                  HasSuffix (Name f) ".class" = true)
    /\ (forall content, Reader_Open r "lib/classlist" = inl content ->
          exists c, c ∈ Split (string_of_list_byte content) (ascii_of_nat 10)
                    /\ Replace1 (Name f) "classes/" "" = classlist_key c).
Proof.
  intros Hopen Hcall. unfold Walk in Hcall. rewrite Hopen in Hcall.
  fold (useClassSet r) in Hcall.
  destruct (Walk_loop_visited_prefix recorder (FileName j) (getClasslist r) (useClassSet r)
              (File r) (entries j) []) as (visited & rest & Hfiles & Hst).
  destruct (Walk_loop recorder (FileName j) (getClasslist r) (useClassSet r)
              (File r) (entries j) []) as [[err ents] st'].
  cbn [snd] in Hst. subst st'.
  assert (Hin : (b, id) ∈ Walk_calls (FileName j) (getClasslist r) (useClassSet r) visited).
  { rewrite foldl_visit_recorder in Hcall. by destruct err. }
  apply Walk_calls_elem in Hin as (f & Hf & Hsel & Hbody & ->).
  exists f. unfold Walk_selects in Hsel. apply andb_prop in Hsel as [Hprefix Hfilter].
  repeat split; try done.
  - rewrite Hfiles. apply elem_of_app. by left.
  - intros e Hclosed. destruct (useClassSet_unreadable r e Hclosed) as [_ Huse].
    by rewrite Huse in Hfilter.
  - intros content Hreadable. rewrite (useClassSet_readable r content Hreadable) in Hfilter.
    apply bool_decide_eq_true in Hfilter.
    by apply (getClasslist_elem r content _ Hreadable) in Hfilter.
Qed.

(** X4. When a selected entry cannot be read, [Walk] returns the error of
    that entry; the visitor has been called on the selected entries before
    it and on none after it, and the index holds the entries up to and
    including the unreadable one. *)
Theorem Walk_stops_at_unreadable_entry {S : Type} (j : Jmod) (r : zip_Reader)
    (walk : WalkEntryFunc S) (st : S)
    (before after : list zip_File) (f : zip_File) (e : error) :
  getZipReader zip_NewReader fsys (FileName j) = Ok r ->
  File r = before ++ f :: after ->
  (forall g, g ∈ before -> Walk_selects (getClasslist r) (useClassSet r) g = true ->
             exists b, body g = inl b) ->
  Walk_selects (getClasslist r) (useClassSet r) f = true ->
  body f = inr e ->
  Walk zip_NewReader fsys j walk st
  = (Err e,
     {| FileName := FileName j; entryListOnce := entryListOnce j;
        entries := populate (before ++ [f]) (entries j) |},
     foldl (visit walk) st
           (Walk_calls (FileName j) (getClasslist r) (useClassSet r) before)).
Proof.
  intros Hopen Hfiles Hread Hsel Hbody. unfold Walk. rewrite Hopen.
  fold (useClassSet r). rewrite Hfiles.
  by rewrite (Walk_loop_stops walk _ _ _ before after f e Hread Hsel Hbody).
Qed.

(** X5. A file that does not begin with the magic number [0x4A4D] is
    refused by both operations with the error that names the file and both
    magic numbers; the visitor is not called, the guard does not fire and
    the index is left alone. *)
Theorem not_a_jmod_file_leaves_handle_alone {S : Type} (j : Jmod) (content : bytes)
    (name : string) (walk : WalkEntryFunc S) (st : S) :
  fsys !! FileName j = Some content ->
  file_magic content <> MagicNumber ->
  Walk zip_NewReader fsys j walk st
  = (Err (magic_error (FileName j) (file_magic content)), j, st)
  /\ LoadByName zip_NewReader fsys j name
     = (Err (magic_error (FileName j) (file_magic content)), j).
Proof.
  intros Hfile Hmagic. unfold Walk, LoadByName.
  by rewrite (getZipReader_magic_mismatch zip_NewReader fsys _ content Hfile Hmagic).
Qed.

End FurtherArchiveProperties.

Lemma getClasslist_filter_on_iff_readable_witness :
  useClassSet empty_classlist_reader = true
  /\ getClasslist jacobinfull_reader = ∅ /\ useClassSet jacobinfull_reader = false.
Proof.
  destruct (getClasslist_filter_on_iff_readable empty_classlist_reader) as [Hon _].
  destruct (getClasslist_filter_on_iff_readable jacobinfull_reader) as [_ Hoff].
  split.
  - apply (Hon []). reflexivity.
  - apply (Hoff (errors_New "open lib/classlist: file does not exist")). reflexivity.
Defined.

Lemma Walk_calls_only_selected_entries_witness :
  exists f,
    f ∈ File jacobin_reader
    /\ body f = inl [xba; xbe]
    /\ "m.jmod+classes/org/jacobin/test/Hello.class" = "m.jmod" +:+ "+" +:+ Name f
    /\ HasPrefix (Name f) "classes" = true.
Proof.
  destruct (Walk_calls_only_selected_entries (fun _ => inl jacobin_reader) one_jmod_fs
              (InitJmod "m.jmod") jacobin_reader [xba; xbe]
              "m.jmod+classes/org/jacobin/test/Hello.class")
    as (f & Hf & Hbody & Hid & Hprefix & _).
  - vm_compute. reflexivity.
  - vm_compute. apply list_elem_of_here.
  - exists f. repeat split; assumption.
Defined.

Lemma Walk_stops_at_unreadable_entry_witness :
  Walk (fun _ => inl clash_reader) one_jmod_fs (InitJmod "m.jmod") failing_recorder []
  = (Err (errors_New "zip: unsupported compression algorithm"),
     {| FileName := "m.jmod"; entryListOnce := false;
        entries := {[ "classesX.class" := "classes/classesX.class";
                      "bad.class" := "classes/bad.class" ]} |},
     [([x01], "m.jmod+classes/classesX.class")]).
Proof.
  rewrite (Walk_stops_at_unreadable_entry (fun _ => inl clash_reader) one_jmod_fs
             (InitJmod "m.jmod") clash_reader failing_recorder []
             [ {| Name := "classes/classesX.class"; body := inl [x01] |} ]
             [ {| Name := "classesclasses/X.class"; body := inl [x02] |} ]
             {| Name := "classes/bad.class";
                body := inr (errors_New "zip: unsupported compression algorithm") |}
             (errors_New "zip: unsupported compression algorithm")).
  - vm_compute. reflexivity.
  - vm_compute. reflexivity.
  - reflexivity.
  - intros g Hg%list_elem_of_In _. simpl in Hg. destruct Hg as [<-|[]]. by eexists.
  - vm_compute. reflexivity.
  - reflexivity.
Defined.

Lemma not_a_jmod_file_leaves_handle_alone_witness :
  Walk (fun _ => inl stray_reader) readme_fs (InitJmod "README.md") recorder []
  = (Err (errors_New "An IOException occurred reading README.md: the magic number is invalid. Expected: 4a4d, Got: 2320"),
     InitJmod "README.md", [])
  /\ LoadByName (fun _ => inl stray_reader) readme_fs (InitJmod "README.md") "A.class"
     = (Err (errors_New "An IOException occurred reading README.md: the magic number is invalid. Expected: 4a4d, Got: 2320"),
        InitJmod "README.md").
Proof.
  apply (not_a_jmod_file_leaves_handle_alone (fun _ => inl stray_reader) readme_fs
           (InitJmod "README.md") (list_byte_of_string "# jmod test data")).
  - vm_compute. reflexivity.
  - vm_compute. discriminate.
Defined.

(** ** More on loading by name *)



Section FurtherLoadProperties.

Variable zip_NewReader : bytes -> zip_Reader + error.
Variable fsys : gmap string bytes.


Lemma LoadByName_populated (j : Jmod) (r : zip_Reader) (name : string) :
  getZipReader zip_NewReader fsys (FileName j) = Ok r ->
  entryListOnce j = false ->
  fst (LoadByName zip_NewReader fsys
         {| FileName := FileName j; entryListOnce := true;
            entries := populate (File r) (entries j) |} name)
  = fst (LoadByName zip_NewReader fsys j name).
Proof.
  intros Hopen Honce. unfold LoadByName. cbn [FileName entryListOnce entries].
  rewrite Hopen, Honce. cbn [entries].
  destruct (populate (File r) (entries j) !! name) as [class|]; [|reflexivity].
  by destruct (Reader_Open r class).
Qed.

(** X7. With the files unchanged, what [LoadByName] returns for a name
    does not depend on the lookups made before it on the same handle. *)
Theorem LoadByName_independent_of_earlier_lookup (j : Jmod) (earlier name : string) :
  fst (LoadByName zip_NewReader fsys (snd (LoadByName zip_NewReader fsys j earlier)) name)
  = fst (LoadByName zip_NewReader fsys j name).
Proof.
  unfold LoadByName at 2.
  destruct (getZipReader zip_NewReader fsys (FileName j)) as [r|e|m] eqn:Hopen;
    [|reflexivity..].
  destruct (entryListOnce j) eqn:Honce.
  - destruct (entries j !! earlier) as [class|]; [destruct (Reader_Open r class)|];
      reflexivity.
  - cbn [entries].
    destruct (populate (File r) (entries j) !! earlier) as [class|];
      [destruct (Reader_Open r class)|]; cbn [snd]; by apply LoadByName_populated.
Qed.

Lemma LoadByName_FileName (j : Jmod) (name : string) :
  FileName (snd (LoadByName zip_NewReader fsys j name)) = FileName j.
Proof.
  unfold LoadByName.
  destruct (getZipReader zip_NewReader fsys (FileName j)) as [r|e|m]; [|reflexivity..].
  destruct (entryListOnce j);
    (destruct (entries _ !! name) as [class|];
      [by destruct (Reader_Open r class)|reflexivity]).
Qed.

Lemma LoadClassByName_range_keeps_archives (order : list string) (name : string) :
  forall jl : gmap string Jmod,
    let jl' := snd (LoadClassByName_range zip_NewReader fsys order jl name) in
    forall k, FileName <$> jl' !! k = FileName <$> jl !! k.
Proof.
  induction order as [|k0 order IH]; intros jl; cbn zeta; [done|].
  cbn [LoadClassByName_range].
  destruct (jl !! k0) as [value|] eqn:Hk0; [|apply IH].
  pose proof (LoadByName_FileName value name) as Hfile.
  destruct (LoadByName zip_NewReader fsys value name) as [res value']. cbn [snd] in Hfile.
  assert (Hins : forall k, FileName <$> <[k0:=value']> jl !! k = FileName <$> jl !! k).
  { intros k. rewrite lookup_insert. case_decide; [|done].
    subst k. rewrite Hk0. cbn. by rewrite Hfile. }
  destruct res as [[b|]|e|m]; cbn [snd]; try exact Hins.
  intros k. cbn zeta in IH. by rewrite IH.
Qed.

(** X8. [LoadClassByName] neither adds nor removes an archive and leaves
    the base where it is: afterwards the same keys map to handles of the
    same files, whatever order the map was ranged over and however the
    call ended. *)
Theorem LoadClassByName_keeps_archives (order : list string) (manager : JmodManager)
    (name : string) :
  let manager' := snd (LoadClassByName zip_NewReader fsys order manager name) in
  base manager' = base manager
  /\ dom (jmodList manager') = dom (jmodList manager)
  /\ forall k, FileName <$> jmodList manager' !! k = FileName <$> jmodList manager !! k.
Proof.
  cbn zeta. unfold LoadClassByName.
  pose proof (LoadClassByName_range_keeps_archives order name (jmodList manager)) as Hkeep.
  cbn zeta in Hkeep.
  destruct (LoadClassByName_range zip_NewReader fsys order (jmodList manager) name)
    as [res jl]. cbn [snd base jmodList] in *.
  split; [reflexivity|]. split; [|exact Hkeep].
  apply set_eq. intros k. rewrite !elem_of_dom.
  specialize (Hkeep k).
  destruct (jl !! k), (jmodList manager !! k); cbn in Hkeep; try done.
  all: split; intros [? ?]; eauto; done.
Qed.

End FurtherLoadProperties.

(** ** More on the manager *)

(** What the walk of [InitJmodManager] keeps true of the two variables it
    captures. *)
Lemma InitJmodManager_visit_invariant (baseName : string) (walked paths : list string) :
  (forall p, p ∈ paths -> p ∈ walked) ->
  forall acc : gmap string Jmod * option string,
    (forall k j, fst acc !! k = Some j ->
       exists path, path ∈ walked /\ HasSuffix path ".jmod" = true
                    /\ k = filepath_Base path /\ j = InitJmod path) ->
    (forall b, snd acc = Some b -> b = baseName /\ is_Some (fst acc !! baseName)) ->
    (forall k j, fst (foldl (InitJmodManager_visit baseName) acc paths) !! k = Some j ->
       exists path, path ∈ walked /\ HasSuffix path ".jmod" = true
                    /\ k = filepath_Base path /\ j = InitJmod path)
    /\ (forall b, snd (foldl (InitJmodManager_visit baseName) acc paths) = Some b ->
          b = baseName
          /\ is_Some (fst (foldl (InitJmodManager_visit baseName) acc paths) !! baseName)).
Proof.
  induction paths as [|path paths IH]; intros Hsub acc Hlist Hbase; [by split|].
  cbn [foldl]. apply IH.
  - intros p Hp. apply Hsub. by apply list_elem_of_further.
  - unfold InitJmodManager_visit.
    destruct (HasSuffix path ".jmod") eqn:Hsuffix; cbn [negb]; [|exact Hlist].
    assert (Hins : forall k j,
               <[filepath_Base path := InitJmod path]> (fst acc) !! k = Some j ->
               exists path', path' ∈ walked /\ HasSuffix path' ".jmod" = true
                             /\ k = filepath_Base path' /\ j = InitJmod path').
    { intros k j. rewrite lookup_insert. case_decide.
      - intros [= <-]. exists path. repeat split; try done.
        apply Hsub, list_elem_of_here.
      - apply Hlist. }
    by destruct (String.eqb (filepath_Base path) baseName).
  - unfold InitJmodManager_visit.
    destruct (HasSuffix path ".jmod") eqn:Hsuffix; cbn [negb]; [|exact Hbase].
    destruct (String.eqb_spec (filepath_Base path) baseName) as [Heq|Hne]; cbn [fst snd].
    + intros b [= <-]. split; [done|]. rewrite <- Heq, lookup_insert_eq. eauto.
    + intros b Hb. destruct (Hbase b Hb) as [-> Hsome]. split; [done|].
      by rewrite lookup_insert_ne.
Qed.

Lemma InitJmodManager_visit_finds_base (baseName : string) (paths : list string) :
  forall acc : gmap string Jmod * option string,
    is_Some (snd acc)
    \/ (exists path, path ∈ paths /\ HasSuffix path ".jmod" = true
                     /\ filepath_Base path = baseName) ->
    is_Some (snd (foldl (InitJmodManager_visit baseName) acc paths)).
Proof.
  induction paths as [|path paths IH]; intros acc Hfound.
  - destruct Hfound as [Hsome|(p & Hp & _)]; [done|]. by apply not_elem_of_nil in Hp.
  - cbn [foldl]. apply IH. unfold InitJmodManager_visit.
    destruct Hfound as [Hsome|(p & [->|Hp]%elem_of_cons & Hsuffix & Hname)].
    + left. destruct (HasSuffix path ".jmod"); cbn [negb]; [|done].
      destruct (String.eqb (filepath_Base path) baseName); cbn [snd]; eauto.
    + left. rewrite Hsuffix. cbn [negb].
      apply String.eqb_eq in Hname. rewrite Hname. cbn [snd]. eauto.
    + right. eauto.
Qed.

Lemma InitJmodManager_ok_inv (tree : gmap string (list string))
    (javaHome baseName : string) (manager : JmodManager) :
  InitJmodManager tree javaHome baseName = Ok manager ->
  base manager = baseName
  /\ is_Some (jmodList manager !! baseName)
  /\ forall k j, jmodList manager !! k = Some j ->
       exists path,
         path ∈ filepath_Walk tree (javaHome +:+ PathSeparator +:+ "jmods")
         /\ HasSuffix path ".jmod" = true
         /\ k = filepath_Base path /\ j = InitJmod path.
Proof.
  unfold InitJmodManager.
  destruct (InitJmodManager_visit_invariant baseName
              (filepath_Walk tree (javaHome +:+ PathSeparator +:+ "jmods"))
              (filepath_Walk tree (javaHome +:+ PathSeparator +:+ "jmods"))
              (fun p Hp => Hp) (∅, None)) as [Hlist Hbase].
  { intros k j Hk. cbn [fst] in Hk. by rewrite lookup_empty in Hk. }
  { intros b Hb. discriminate Hb. }
  destruct (snd (foldl _ _ _)) as [b|] eqn:Hsnd; [|discriminate].
  intros [= <-]. cbn [base jmodList].
  destruct (Hbase b eq_refl) as [-> Hsome]. repeat split; [exact Hsome|exact Hlist].
Qed.

(** X9. [InitJmodManager] succeeds exactly when the walk of
    [<javaHome>/jmods] meets a path that ends in [.jmod] and whose last
    element is the base name. *)
Theorem InitJmodManager_ok_iff (tree : gmap string (list string))
    (javaHome baseName : string) :
  (exists manager, InitJmodManager tree javaHome baseName = Ok manager)
  <-> exists path,
        path ∈ filepath_Walk tree (javaHome +:+ PathSeparator +:+ "jmods")
        /\ HasSuffix path ".jmod" = true
        /\ filepath_Base path = baseName.
Proof.
  split.
  - intros [manager Hok].
    destruct (InitJmodManager_ok_inv tree javaHome baseName manager Hok)
      as (_ & [j Hj] & Hlist).
    destruct (Hlist baseName j Hj) as (path & Hin & Hsuffix & Hname & _). eauto.
  - intros Hpath. unfold InitJmodManager.
    destruct (InitJmodManager_visit_finds_base baseName
                (filepath_Walk tree (javaHome +:+ PathSeparator +:+ "jmods"))
                (∅, None) (or_intror Hpath)) as [b Hb].
    rewrite Hb. eauto.
Qed.

(** X10. The manager [InitJmodManager] returns has the base name as its
    base, holds a handle under that key, and every handle it holds is a
    fresh one (guard not fired, index empty) for a walked path that ends in
    [.jmod], stored under the last element of that path. *)
Theorem InitJmodManager_handles (tree : gmap string (list string))
    (javaHome baseName : string) (manager : JmodManager) :
  InitJmodManager tree javaHome baseName = Ok manager ->
  base manager = baseName
  /\ is_Some (jmodList manager !! baseName)
  /\ forall k j, jmodList manager !! k = Some j ->
       FileName j ∈ filepath_Walk tree (javaHome +:+ PathSeparator +:+ "jmods")
       /\ HasSuffix (FileName j) ".jmod" = true
       /\ k = filepath_Base (FileName j)
       /\ entryListOnce j = false
       /\ entries j = ∅.
Proof.
  intros Hok.
  destruct (InitJmodManager_ok_inv tree javaHome baseName manager Hok)
    as (Hbase & Hsome & Hlist).
  repeat split; try done;
    destruct (Hlist k j H) as (path & Hin & Hsuffix & -> & ->); done.
Qed.

Section FurtherManagerProperties.

Variable zip_NewReader : bytes -> zip_Reader + error.
Variable fsys : gmap string bytes.

(** X11. On the manager [InitJmodManager] returns, [WalkBaseClasses] is
    [Walk] on a fresh handle for a walked [.jmod] path whose last element
    is the base name: same result, same calls of the visitor; the handle is
    stored back under the base name, and the nil base is never met. *)
Theorem WalkBaseClasses_walks_base {S : Type} (tree : gmap string (list string))
    (javaHome baseName : string) (manager : JmodManager)
    (walk : WalkEntryFunc S) (st : S) :
  InitJmodManager tree javaHome baseName = Ok manager ->
  exists path,
    path ∈ filepath_Walk tree (javaHome +:+ PathSeparator +:+ "jmods")
    /\ HasSuffix path ".jmod" = true
    /\ filepath_Base path = baseName
    /\ WalkBaseClasses zip_NewReader fsys manager walk st
       = (fst (fst (Walk zip_NewReader fsys (InitJmod path) walk st)),
          {| jmodList := <[baseName := snd (fst (Walk zip_NewReader fsys (InitJmod path)
                                                      walk st))]> (jmodList manager);
             base := baseName |},
          snd (Walk zip_NewReader fsys (InitJmod path) walk st)).
Proof.
  intros Hok.
  destruct (InitJmodManager_ok_inv tree javaHome baseName manager Hok)
    as (Hbase & [j Hj] & Hlist).
  destruct (Hlist baseName j Hj) as (path & Hin & Hsuffix & Hname & ->).
  exists path. repeat split; try done.
  unfold WalkBaseClasses. rewrite Hbase, Hj.
  by destruct (Walk zip_NewReader fsys (InitJmod path) walk st) as [[res b'] st'].
Qed.

End FurtherManagerProperties.


Lemma InitJmodManager_handles_witness :
  base two_manager = "a.jmod"
  /\ is_Some (jmodList two_manager !! "a.jmod")
  /\ forall k j, jmodList two_manager !! k = Some j ->
       FileName j ∈ filepath_Walk two_tree ("/jdk" +:+ PathSeparator +:+ "jmods")
       /\ HasSuffix (FileName j) ".jmod" = true
       /\ k = filepath_Base (FileName j)
       /\ entryListOnce j = false
       /\ entries j = ∅.
Proof.
  apply (InitJmodManager_handles two_tree "/jdk" "a.jmod" two_manager).
  vm_compute. reflexivity.
Defined.

Lemma WalkBaseClasses_walks_base_witness :
  exists path,
    path ∈ filepath_Walk two_tree ("/jdk" +:+ PathSeparator +:+ "jmods")
    /\ HasSuffix path ".jmod" = true
    /\ filepath_Base path = "a.jmod"
    /\ WalkBaseClasses two_NewReader two_fs two_manager recorder []
       = (fst (fst (Walk two_NewReader two_fs (InitJmod path) recorder [])),
          {| jmodList := <["a.jmod" := snd (fst (Walk two_NewReader two_fs (InitJmod path)
                                                      recorder []))]> (jmodList two_manager);
             base := "a.jmod" |},
          snd (Walk two_NewReader two_fs (InitJmod path) recorder [])).
Proof.
  apply (WalkBaseClasses_walks_base two_NewReader two_fs two_tree "/jdk" "a.jmod"
           two_manager recorder []).
  vm_compute. reflexivity.
Defined.

Lemma LoadByName_sequence_read_only_witness :
  foldl (run_operation (fun _ => inl stray_reader) one_jmod_fs)
        (snd (LoadByName (fun _ => inl jacobinfull_reader) one_jmod_fs (InitJmod "m.jmod")
                         "module-info.class"))
        (OpLoadByName <$> ["B.class"; "module-info.class"])
  = snd (LoadByName (fun _ => inl jacobinfull_reader) one_jmod_fs (InitJmod "m.jmod")
                    "module-info.class").
Proof.
  apply (LoadByName_sequence_read_only (fun _ => inl stray_reader) one_jmod_fs).
  vm_compute. reflexivity.
Defined.

(** ** More on starting the JVM *)

Section FurtherJVMrunProperties.

Import jvm.

Variable shutdown_Exit : ExitStatus -> Z.
Variable InitGlobals : string -> Globals.
Variable HandleCli_options : list string -> Globals -> Globals.

Local Abbreviation after_cli := (Global_after_cli InitGlobals HandleCli_options).

(** X12. When the exit codes of the failure reasons differ from that of
    [OK], [JVMrun] returns the exit for [OK] in three cases only: the
    command line asked for an immediate exit; or a JAR was given, its
    manifest names a main class, that class loads and the execution
    returns no error; or no JAR but a class file was given, it loads and
    the execution returns no error. *)
Theorem JVMrun_ok_iff (GetMainClassFromJar : string -> string + error)
    (LoadClassFromJar : string -> string -> string + error)
    (LoadClassFromFile : string -> string + error)
    (StartExec : string -> Globals -> option error)
    (osArgs : list string) (globalRef : Globals) :
  shutdown_Exit APP_EXCEPTION <> shutdown_Exit OK ->
  shutdown_Exit JVM_EXCEPTION <> shutdown_Exit OK ->
  let Global := after_cli osArgs globalRef in
  snd (JVMrun shutdown_Exit InitGlobals GetMainClassFromJar LoadClassFromJar
              LoadClassFromFile StartExec HandleCli_options osArgs globalRef)
  = shutdown_Exit OK
  <-> ExitNow Global = true
      \/ (ExitNow Global = false /\ StartingJar Global <> ""
          /\ exists manifestClass mainClass,
               manifestClass <> ""
               /\ GetMainClassFromJar (StartingJar Global) = inl manifestClass
               /\ LoadClassFromJar manifestClass (StartingJar Global) = inl mainClass
               /\ StartExec mainClass Global = None)
      \/ (ExitNow Global = false /\ StartingJar Global = "" /\ StartingClass Global <> ""
          /\ exists mainClass,
               LoadClassFromFile (StartingClass Global) = inl mainClass
               /\ StartExec mainClass Global = None).
Proof.
  intros Happ Hjvm Global. subst Global.
  unfold Global_after_cli, JVMrun, HandleCli.
  set (Global := HandleCli_options osArgs _).
  destruct (ExitNow Global) eqn:Hnow.
  { split; [by left|reflexivity]. }
  destruct (String.eqb_spec (StartingJar Global) "") as [Hjar|Hjar]; cbn [negb].
  - destruct (String.eqb_spec (StartingClass Global) "") as [Hclass|Hclass]; cbn [negb].
    + cbn [snd]. split; [done|].
      intros [?|[(_ & ? & _)|(_ & _ & ? & _)]]; done.
    + destruct (LoadClassFromFile (StartingClass Global)) as [mainClass|e] eqn:Hload.
      * destruct (StartExec mainClass Global) eqn:Hexec; cbn [snd].
        -- split; [done|].
           intros [?|[(_ & ? & _)|(_ & _ & _ & mainClass' & [= <-] & Hnone)]]; try done.
           congruence.
        -- split; [|done]. intros _. right. right. repeat split; try done. eauto.
      * cbn [snd]. split; [done|].
        intros [?|[(_ & ? & _)|(_ & _ & _ & mainClass' & ? & _)]]; done.
  - destruct (GetMainClassFromJar (StartingJar Global)) as [manifestClass|e] eqn:Hmain.
    + destruct (String.eqb_spec manifestClass "") as [Hempty|Hempty].
      * cbn [snd]. split; [done|].
        intros [?|[(_ & _ & mc & mainClass & Hmc & [= <-] & _)|(_ & ? & _)]]; done.
      * destruct (LoadClassFromJar manifestClass (StartingJar Global))
          as [mainClass|e] eqn:Hload.
        -- destruct (StartExec mainClass Global) eqn:Hexec; cbn [snd].
           ++ split; [done|].
              intros [?|[(_ & _ & mc & mainClass' & _ & [= <-] & Hload' & Hnone)
                        |(_ & ? & _)]]; try done.
              congruence.
           ++ split; [|done]. intros _. right. left. repeat split; try done. eauto 10.
        -- cbn [snd]. split; [done|].
           intros [?|[(_ & _ & mc & mainClass' & _ & [= <-] & Hload' & _)|(_ & ? & _)]];
             try done. congruence.
    + cbn [snd]. split; [done|].
      intros [?|[(_ & _ & mc & mainClass & _ & ? & _)|(_ & ? & _)]]; done.
Qed.

(** X13. [JVMrun] consults no more than it needs: when the command line
    asked for an immediate exit nothing is loaded or executed; when a JAR
    was given the class-file loader is not consulted; when none was given
    the two JAR functions are not consulted. *)
Theorem JVMrun_consults_only_what_it_needs
    (GetMainClassFromJar GetMainClassFromJar' : string -> string + error)
    (LoadClassFromJar LoadClassFromJar' : string -> string -> string + error)
    (LoadClassFromFile LoadClassFromFile' : string -> string + error)
    (StartExec StartExec' : string -> Globals -> option error)
    (osArgs : list string) (globalRef : Globals) :
  let Global := after_cli osArgs globalRef in
  (ExitNow Global = true ->
   JVMrun shutdown_Exit InitGlobals GetMainClassFromJar LoadClassFromJar
          LoadClassFromFile StartExec HandleCli_options osArgs globalRef
   = JVMrun shutdown_Exit InitGlobals GetMainClassFromJar' LoadClassFromJar'
            LoadClassFromFile' StartExec' HandleCli_options osArgs globalRef)
  /\ (StartingJar Global <> "" ->
      JVMrun shutdown_Exit InitGlobals GetMainClassFromJar LoadClassFromJar
             LoadClassFromFile StartExec HandleCli_options osArgs globalRef
      = JVMrun shutdown_Exit InitGlobals GetMainClassFromJar LoadClassFromJar
               LoadClassFromFile' StartExec HandleCli_options osArgs globalRef)
  /\ (StartingJar Global = "" ->
      JVMrun shutdown_Exit InitGlobals GetMainClassFromJar LoadClassFromJar
             LoadClassFromFile StartExec HandleCli_options osArgs globalRef
      = JVMrun shutdown_Exit InitGlobals GetMainClassFromJar' LoadClassFromJar'
               LoadClassFromFile StartExec HandleCli_options osArgs globalRef).
Proof.
  intros Global. subst Global. unfold Global_after_cli, JVMrun, HandleCli.
  set (Global := HandleCli_options osArgs _).
  split; [|split].
  - intros ->. reflexivity.
  - intros Hjar%String.eqb_neq. rewrite Hjar. reflexivity.
  - intros ->. reflexivity.
Qed.

End FurtherJVMrunProperties.

Lemma JVMrun_ok_iff_witness :
  snd (jvm.JVMrun sample_Exit (fun _ => sample_globals "" "") sample_GetMainClassFromJar
         sample_LoadClassFromJar sample_LoadClassFromFile (fun _ _ => None)
         (fun _ g => g) ["jacobin"; "Hello.class"] (sample_globals "" "Hello.class"))
  = 0%Z.
Proof.
  apply (JVMrun_ok_iff sample_Exit (fun _ => sample_globals "" "") (fun _ g => g)
           sample_GetMainClassFromJar sample_LoadClassFromJar sample_LoadClassFromFile
           (fun _ _ => None) ["jacobin"; "Hello.class"] (sample_globals "" "Hello.class")).
  - discriminate.
  - discriminate.
  - right. right. repeat split; try discriminate. exists "Hello". split; reflexivity.
Defined.

Lemma JVMrun_consults_only_what_it_needs_witness :
  jvm.JVMrun sample_Exit (fun _ => sample_globals "" "") sample_GetMainClassFromJar
    sample_LoadClassFromJar sample_LoadClassFromFile sample_StartExec
    (fun _ g => g) ["jacobin"; "-jar"; "run.jar"] (sample_globals "run.jar" "Hello.class")
  = jvm.JVMrun sample_Exit (fun _ => sample_globals "" "") sample_GetMainClassFromJar
      sample_LoadClassFromJar (fun _ => inr (errors_New "never asked")) sample_StartExec
      (fun _ g => g) ["jacobin"; "-jar"; "run.jar"] (sample_globals "run.jar" "Hello.class").
Proof.
  pose proof (JVMrun_consults_only_what_it_needs sample_Exit
                (fun _ => sample_globals "" "")
                (fun _ g => g) sample_GetMainClassFromJar sample_GetMainClassFromJar
                sample_LoadClassFromJar sample_LoadClassFromJar
                sample_LoadClassFromFile (fun _ => inr (errors_New "never asked"))
                sample_StartExec sample_StartExec
                ["jacobin"; "-jar"; "run.jar"] (sample_globals "run.jar" "Hello.class")) as H.
  cbv zeta in H. destruct H as (_ & Hjar & _).
  apply Hjar. vm_compute. discriminate.
Defined.

(** ** The counters *)

Lemma int64_wrap_add_l (a b : Z) :
  metrics.int64_wrap (metrics.int64_wrap a + b) = metrics.int64_wrap (a + b).
Proof.
  unfold metrics.int64_wrap. f_equal.
  replace ((a + 2 ^ 63) `mod` 2 ^ 64 - 2 ^ 63 + b + 2 ^ 63)%Z
    with ((a + 2 ^ 63) `mod` 2 ^ 64 + b)%Z by lia.
  rewrite Zplus_mod_idemp_l. f_equal. lia.
Qed.

Lemma int64_wrap_small (z : Z) :
  (- 2 ^ 63 <= z < 2 ^ 63)%Z -> metrics.int64_wrap z = z.
Proof. intros Hz. unfold metrics.int64_wrap. rewrite Z.mod_small; lia. Qed.

Lemma consume_one_lookup (counterMap : gmap string Z) (received name : string) :
  metrics.consume_one counterMap received !! name
  = if decide (received = name)
    then Some (metrics.int64_wrap (default 0%Z (counterMap !! name) + 1))
    else counterMap !! name.
Proof.
  unfold metrics.consume_one. case_decide as Hname.
  - subst received. destruct (counterMap !! name) as [v|]; by rewrite lookup_insert_eq.
  - destruct (counterMap !! received); by rewrite lookup_insert_ne.
Qed.

Lemma consume_cons (r : string) (received : list string) (counterMap : gmap string Z) :
  metrics.consume (r :: received) counterMap
  = metrics.consume received (metrics.consume_one counterMap r).
Proof. reflexivity. Qed.

(** X14. After [consume] has received a sequence of names, a name that
    was not received has the counter it had, and a name received [n > 0]
    times has its old counter ([0] if it had none) plus [n], as an [int64];
    when that sum is below [2^63] the counter is the sum itself. *)
Theorem consume_counts (received : list string) (counterMap : gmap string Z)
    (name : string) :
  let n := Z.of_nat (length (filter (fun x => x = name) received)) in
  let old := default 0%Z (counterMap !! name) in
  (n = 0%Z -> metrics.consume received counterMap !! name = counterMap !! name)
  /\ ((0 < n)%Z ->
      metrics.consume received counterMap !! name = Some (metrics.int64_wrap (old + n)))
  /\ ((0 < n)%Z -> (- 2 ^ 63 <= old)%Z -> (old + n < 2 ^ 63)%Z ->
      metrics.consume received counterMap !! name = Some (old + n)%Z).
Proof.
  cbn zeta.
  assert (Hcount : forall (rs : list string) (m : gmap string Z),
    (Z.of_nat (length (filter (fun x => x = name) rs)) = 0%Z ->
     metrics.consume rs m !! name = m !! name)
    /\ ((0 < Z.of_nat (length (filter (fun x => x = name) rs)))%Z ->
        metrics.consume rs m !! name
        = Some (metrics.int64_wrap
                  (default 0%Z (m !! name)
                   + Z.of_nat (length (filter (fun x => x = name) rs)))))).
  { induction rs as [|r rs IH]; intros m.
    - split; [reflexivity|]. cbn. lia.
    - rewrite consume_cons.
      destruct (IH (metrics.consume_one m r)) as [IH0 IHpos].
      rewrite filter_cons, consume_one_lookup in *.
      case_decide as Hr.
      + cbn [length]. split; [lia|]. intros _.
        destruct (length (filter (fun x => x = name) rs)) as [|k] eqn:Hk.
        * rewrite IH0 by reflexivity. do 2 f_equal.
        * rewrite IHpos by lia. cbn [default from_option]. unfold id.
          rewrite int64_wrap_add_l. do 2 f_equal. lia.
      + split; [exact IH0|exact IHpos]. }
  destruct (Hcount received counterMap) as [H0 Hpos].
  split; [exact H0|]. split; [exact Hpos|].
  intros Hn Hlo Hhi. rewrite (Hpos Hn). f_equal. apply int64_wrap_small. lia.
Qed.

(** X15. [consume] never removes a counter: afterwards the map has the
    names it had and the names received, and no other. *)
Theorem consume_names (received : list string) (counterMap : gmap string Z) :
  dom (metrics.consume received counterMap) = dom counterMap ∪ list_to_set received.
Proof.
  revert counterMap. induction received as [|r received IH]; intros counterMap.
  - cbn [metrics.consume foldl list_to_set]. by rewrite (right_id_L ∅ (∪)).
  - rewrite consume_cons, IH. cbn [list_to_set].
    assert (Hdom : dom (metrics.consume_one counterMap r) = dom counterMap ∪ {[r]}).
    { unfold metrics.consume_one.
      destruct (counterMap !! r); rewrite dom_insert_L; apply (comm_L (∪)). }
    by rewrite Hdom, (assoc_L (∪)).
Qed.

(** ** The server and the registry *)

Section ServerProperties.

Import management server.

Variable any : Type.
Variable MemStats : Type.
Variable json_Marshal : json_value MemStats -> string + error.

(** What [RefreshInstrumentationEndpoints] stores and what it leaves. *)
Lemma RefreshInstrumentationEndpoints_lookup
    (providers : gmap string (InstrumentationProvider any)) (m : gmap string handler) :
  (forall k p, providers !! k = Some p ->
     RefreshInstrumentationEndpoints any providers m !! ("/instrumentation/" +:+ Name any p)
     = Some (makeProviderListEndpoint (Name any p)))
  /\ (forall url h,
        RefreshInstrumentationEndpoints any providers m !! url = Some h ->
        m !! url = Some h
        \/ exists k p, providers !! k = Some p
                       /\ url = "/instrumentation/" +:+ Name any p
                       /\ h = makeProviderListEndpoint (Name any p)).
Proof.
  unfold RefreshInstrumentationEndpoints.
  apply (map_fold_weak_ind
           (fun (r : gmap string handler) (ps : gmap string (InstrumentationProvider any)) =>
              (forall k p, ps !! k = Some p ->
                 r !! ("/instrumentation/" +:+ Name any p)
                 = Some (makeProviderListEndpoint (Name any p)))
              /\ (forall url h, r !! url = Some h ->
                    m !! url = Some h
                    \/ exists k p, ps !! k = Some p
                                   /\ url = "/instrumentation/" +:+ Name any p
                                   /\ h = makeProviderListEndpoint (Name any p)))).
  - split; [intros k p Hk; by rewrite lookup_empty in Hk|]. intros url h Hurl. by left.
  - intros i x ps r Hfresh [Hstored Hother]. split.
    + intros k p. rewrite lookup_insert. case_decide as Hk.
      * intros [= <-]. by rewrite lookup_insert_eq.
      * intros Hp. rewrite lookup_insert. case_decide as Hurl; [|by apply (Hstored k)].
        apply (inj (String.append _)) in Hurl. by rewrite Hurl.
    + intros url h. rewrite lookup_insert. case_decide as Hurl.
      * intros [= <-]. right. exists i, x. by rewrite lookup_insert_eq.
      * intros Hr. destruct (Hother url h Hr) as [Hm|(k & p & Hk & Hu & Hh)]; [by left|].
        right. exists k, p. split; [|done].
        rewrite lookup_insert_ne; [done|]. intros <-. congruence.
Qed.

Lemma RegisterProvider_new (provider : InstrumentationProvider any) (st : state any) :
  instrumentationProviders any st !! Name any provider = None ->
  RegisterProvider any provider st
  = (None,
     {| instrumentationProviders :=
          <[Name any provider := provider]> (instrumentationProviders any st);
        mux := RefreshInstrumentationEndpoints any
                 (<[Name any provider := provider]> (instrumentationProviders any st))
                 (mux any st) |}).
Proof. intros Hnew. unfold RegisterProvider. by rewrite Hnew. Qed.

(** X16. A provider registered under a free name is found again by
    [GetProvider], the providers of other names are found as before, and a
    request for [/instrumentation/<name>] is answered with the JSON of the
    provider's list (or with status 500 if it cannot be encoded), also
    once the server has been started. *)
Theorem RegisterProvider_then_served (provider : InstrumentationProvider any)
    (st : state any) (order : list string) (memoryStats : MemStats)
    (counterMap : gmap string Z) :
  instrumentationProviders any st !! Name any provider = None ->
  let st' := snd (RegisterProvider any provider st) in
  GetProvider any (Name any provider) st' = Some provider
  /\ (forall name, name <> Name any provider ->
                   GetProvider any name st' = GetProvider any name st)
  /\ ServeHTTP any MemStats json_Marshal ("/instrumentation/" +:+ Name any provider)
               order memoryStats counterMap st'
     = Header_Add "Content-Type" "text/json"
       :: writeJson MemStats json_Marshal (ListResponse MemStats (List any provider))
  /\ ServeHTTP any MemStats json_Marshal ("/instrumentation/" +:+ Name any provider)
               order memoryStats counterMap (StartServer any st')
     = Header_Add "Content-Type" "text/json"
       :: writeJson MemStats json_Marshal (ListResponse MemStats (List any provider)).
Proof.
  intros Hnew. cbn zeta. rewrite (RegisterProvider_new provider st Hnew). cbn [snd].
  set (providers := <[Name any provider := provider]> (instrumentationProviders any st)).
  assert (Hfound : providers !! Name any provider = Some provider)
    by apply lookup_insert_eq.
  destruct (RefreshInstrumentationEndpoints_lookup providers (mux any st)) as [Hstored _].
  specialize (Hstored _ _ Hfound).
  unfold GetProvider, ServeHTTP, StartServer. cbn [instrumentationProviders mux].
  repeat split.
  - exact Hfound.
  - intros name Hname. unfold providers. by rewrite lookup_insert_ne.
  - rewrite Hstored. cbn [call_handler]. unfold providerList, GetProvider.
    cbn [instrumentationProviders]. by rewrite Hfound.
  - rewrite !lookup_insert_ne by (intros Heq; discriminate Heq).
    rewrite Hstored. cbn [call_handler]. unfold providerList, GetProvider.
    cbn [instrumentationProviders]. by rewrite Hfound.
Qed.

Lemma run_step_invariants (st : state any) (o : step any) :
  keyed_by_name any st -> endpoints_registered any st ->
  keyed_by_name any (run_step any st o) /\ endpoints_registered any (run_step any st o).
Proof.
  intros Hkeyed Hendpoints. destruct o as [provider|]; cbn [run_step].
  - destruct (instrumentationProviders any st !! Name any provider) as [old|] eqn:Hold.
    + unfold RegisterProvider. rewrite Hold. by split.
    + rewrite (RegisterProvider_new provider st Hold). cbn [snd].
      assert (Hkeyed' : forall k p,
                 <[Name any provider := provider]> (instrumentationProviders any st) !! k
                 = Some p -> Name any p = k).
      { intros k p. rewrite lookup_insert. case_decide; [by intros [= <-]|apply Hkeyed]. }
      split; [exact Hkeyed'|].
      intros url name Hurl. cbn [instrumentationProviders mux] in *.
      destruct (RefreshInstrumentationEndpoints_lookup
                  (<[Name any provider := provider]> (instrumentationProviders any st))
                  (mux any st)) as [_ Hother].
      destruct (Hother url _ Hurl) as [Hm|(k & p & Hk & _ & [= ->])].
      * destruct (Hendpoints url name Hm) as [q Hq].
        rewrite lookup_insert. case_decide; eauto.
      * rewrite (Hkeyed' k p Hk). eauto.
  - split; [exact Hkeyed|].
    intros url name. unfold StartServer. cbn [instrumentationProviders mux].
    rewrite lookup_insert. case_decide; [discriminate|].
    rewrite lookup_insert. case_decide; [discriminate|]. apply Hendpoints.
Qed.

Lemma run_steps_invariants (steps : list (step any)) :
  forall st,
    keyed_by_name any st -> endpoints_registered any st ->
    keyed_by_name any (foldl (run_step any) st steps)
    /\ endpoints_registered any (foldl (run_step any) st steps).
Proof.
  induction steps as [|o steps IH]; intros st Hkeyed Hendpoints; [by split|].
  cbn [foldl]. destruct (run_step_invariants st o Hkeyed Hendpoints). by apply IH.
Qed.

Lemma initial_invariants : keyed_by_name any (initial any) /\ endpoints_registered any (initial any).
Proof.
  split.
  - intros k p Hk. cbn in Hk. by rewrite lookup_empty in Hk.
  - intros url name Hurl. cbn in Hurl. by rewrite lookup_empty in Hurl.
Qed.

(** X17. Whatever providers are registered and whenever the server is
    started, every provider is stored under its own name and every
    provider-list endpoint is for a registered name. *)
Theorem registry_invariants (steps : list (step any)) :
  keyed_by_name any (foldl (run_step any) (initial any) steps)
  /\ endpoints_registered any (foldl (run_step any) (initial any) steps).
Proof. destruct initial_invariants. by apply run_steps_invariants. Qed.

Lemma writeJson_no_404 (obj : json_value MemStats) :
  WriteHeader StatusNotFound ∉ writeJson MemStats json_Marshal obj.
Proof.
  unfold writeJson. destruct (json_Marshal obj);
    intros Hin%list_elem_of_In; simpl in Hin; intuition discriminate.
Qed.

(** X18. Whatever providers are registered and whenever the server is
    started, no request is answered with status 404: the "not found"
    branch of [providerList] cannot be reached through [ServeHTTP]. *)
Theorem ServeHTTP_never_404 (steps : list (step any)) (url : string) (order : list string)
    (memoryStats : MemStats) (counterMap : gmap string Z) :
  WriteHeader StatusNotFound
  ∉ ServeHTTP any MemStats json_Marshal url order memoryStats counterMap
              (foldl (run_step any) (initial any) steps).
Proof.
  destruct initial_invariants as [Hk0 He0].
  destruct (run_steps_invariants steps (initial any) Hk0 He0) as [_ Hendpoints].
  set (st := foldl (run_step any) (initial any) steps) in *.
  unfold ServeHTTP.
  destruct (mux any st !! url) as [h|] eqn:Hurl.
  - intros [Heq|Hin]%elem_of_cons; [discriminate Heq|]. revert Hin.
    destruct h as [| |name]; cbn [call_handler].
    + apply writeJson_no_404.
    + apply writeJson_no_404.
    + unfold providerList, GetProvider.
      destruct (Hendpoints url name Hurl) as [p ->]. apply writeJson_no_404.
  - intros Hin%list_elem_of_In. simpl in Hin. intuition discriminate.
Qed.

End ServerProperties.

(** ** The command line *)

Lemma Contains_spec (s t : string) :
  Contains s t = true <-> exists u v, s = u +:+ t +:+ v.
Proof.
  split.
  - induction s as [|c s IH]; cbn [Contains].
    + destruct (HasPrefix "" t) eqn:Hprefix; [|discriminate].
      intros _. exists "", (string_drop (String.length t) ""). by apply HasPrefix_split.
    + destruct (HasPrefix (String c s) t) eqn:Hprefix.
      * intros _. exists "", (string_drop (String.length t) (String c s)).
        by apply HasPrefix_split.
      * intros (u & v & ->)%IH. by exists (String c u), v.
  - intros (u & v & ->). induction u as [|c u IH].
    + change ("" +:+ t +:+ v) with (t +:+ v).
      destruct (t +:+ v) eqn:Htv; cbn [Contains]; rewrite <- Htv, HasPrefix_append; done.
    + rewrite string_app_cons. cbn [Contains]. rewrite IH. by destruct (HasPrefix _ t).
Qed.

Lemma Contains_needle_suffix (s a b : string) :
  Contains s (a +:+ b) = true -> Contains s b = true.
Proof.
  rewrite !Contains_spec. intros (u & v & ->). exists (u +:+ a), v.
  by rewrite !string_app_assoc.
Qed.

Lemma string_take_app (root rest : string) :
  cli.string_take (String.length root) (root +:+ rest) = root.
Proof.
  induction root as [|c root IH]; [reflexivity|].
  rewrite string_app_cons. cbn [String.length cli.string_take]. by rewrite IH.
Qed.

Lemma string_drop_app (root rest : string) :
  string_drop (String.length root) (root +:+ rest) = rest.
Proof.
  induction root as [|c root IH]; [reflexivity|].
  rewrite string_app_cons. cbn [String.length string_drop]. exact IH.
Qed.

(** [strings.Index] for a separator of one byte. *)
Lemma Index_byte (s : string) (c : ascii) :
  (Contains s (String c "") = false /\ cli.Index s (String c "") = (-1)%Z)
  \/ (Contains s (String c "") = true
      /\ exists root arg,
           s = root +:+ String c "" +:+ arg
           /\ Contains root (String c "") = false
           /\ cli.Index s (String c "") = Z.of_nat (String.length root)).
Proof.
  induction s as [|d s IH]; [by left|].
  cbn [Contains cli.Index HasPrefix]. rewrite HasPrefix_nil.
  destruct (Ascii.eqb_spec d c) as [->|Hdc].
  - right. split; [reflexivity|]. exists "", s. by repeat split.
  - destruct IH as [[Hnone Hindex]|(Hsome & root & arg & -> & Hroot & Hindex)].
    + left. rewrite Hnone, Hindex. by split.
    + right. rewrite Hsome, Hindex. split; [reflexivity|].
      exists (String d root), arg. repeat split.
      * cbn [Contains HasPrefix]. destruct (Ascii.eqb_spec d c); [done|]. exact Hroot.
      * destruct (Z.ltb_spec (Z.of_nat (String.length root)) 0); [lia|].
        cbn [String.length]. lia.
Qed.

(** X19. [getOptionRootAndArgs] fails on the empty option only. A
    non-empty option is cut at its first colon if it has one, else at its
    first equals sign if it has one: the option is the root, the separator
    and the argument put together, and the root is free of the separator;
    an option with neither is returned whole with an empty argument. *)
Theorem getOptionRootAndArgs_split (option_ : string) :
  (option_ = "" ->
   cli.getOptionRootAndArgs option_ = ("", "", Some (errors_New "empty option error")))
  /\ (option_ <> "" ->
      exists root arg,
        cli.getOptionRootAndArgs option_ = (root, arg, None)
        /\ (Contains option_ ":" = true ->
            option_ = root +:+ ":" +:+ arg /\ Contains root ":" = false)
        /\ (Contains option_ ":" = false -> Contains option_ "=" = true ->
            option_ = root +:+ "=" +:+ arg /\ Contains root "=" = false)
        /\ (Contains option_ ":" = false -> Contains option_ "=" = false ->
            root = option_ /\ arg = "")).
Proof.
  split; [by intros ->|]. intros Hnonempty. unfold cli.getOptionRootAndArgs.
  destruct option_ as [|c0 s0]; [done|]. cbn [String.length Nat.eqb]. cbv zeta.
  set (s := String c0 s0) in *.
  assert (Hcut : forall (root arg : string) (sep : ascii),
             cli.string_take (Z.to_nat (Z.of_nat (String.length root)))
                             (root +:+ String sep "" +:+ arg) = root
             /\ string_drop (Z.to_nat (Z.of_nat (String.length root) + 1))
                            (root +:+ String sep "" +:+ arg) = arg).
  { intros root arg sep. rewrite Nat2Z.id. split; [apply string_take_app|].
    replace (Z.to_nat (Z.of_nat (String.length root) + 1))
      with (String.length (root +:+ String sep "")).
    - by rewrite <- string_app_assoc, string_drop_app.
    - clear. induction root as [|c root IH]; [reflexivity|].
      rewrite string_app_cons. cbn [String.length]. rewrite IH. lia. }
  assert (Hfound : forall n : nat, (Z.of_nat n =? -1)%Z = false).
  { intros n. apply Z.eqb_neq. lia. }
  destruct (Index_byte s ":") as [[Hnone Hindex]|(Hsome & root & arg & Hs & Hroot & Hindex)].
  - rewrite Hindex. change ((-1 =? -1)%Z) with true. cbv iota.
    destruct (Index_byte s "=") as [[Hnone' Hindex']|(Hsome' & root & arg & Hs & Hroot & Hindex')].
    + rewrite Hindex'. change ((-1 =? -1)%Z) with true. cbv iota.
      exists s, "". split; [reflexivity|]. intuition congruence.
    + rewrite Hindex', Hfound.
      exists root, arg. destruct (Hcut root arg "="%char) as [Htake Hdrop].
      rewrite <- Hs in Htake, Hdrop. rewrite Htake, Hdrop.
      split; [reflexivity|]. intuition congruence.
  - rewrite Hindex, Hfound. cbv iota. rewrite Hfound.
    exists root, arg. destruct (Hcut root arg ":"%char) as [Htake Hdrop].
    rewrite <- Hs in Htake, Hdrop. rewrite Htake, Hdrop.
    split; [reflexivity|]. intuition congruence.
Qed.

(** X20. [findCommitHash] returns the value of the first setting whose key
    is [vcs.revision], and the empty string when there is none. *)
Theorem findCommitHash_first (before after : list cli.BuildSetting) (revision : string) :
  (forall setting, setting ∈ before -> cli.Key setting <> "vcs.revision") ->
  cli.findCommitHash before = ""
  /\ cli.findCommitHash
       (before ++ {| cli.Key := "vcs.revision"; cli.Value := revision |} :: after)
     = revision.
Proof.
  induction before as [|setting before IH]; intros Hnone; [by split|].
  cbn [app cli.findCommitHash].
  pose proof (Hnone setting (list_elem_of_here _ _)) as Hkey.
  apply String.eqb_neq in Hkey. rewrite Hkey. apply IH.
  intros s Hs. apply Hnone. by apply list_elem_of_further.
Qed.

Section CliProperties.

Import cli.

Variable OptionsTable : Type.
Variable Options_lookup :
  OptionsTable -> string -> option (Z -> string -> Globals OptionsTable -> Z * Globals OptionsTable).
Variable strings_TrimSpace : string -> string.
Variable strings_Fields : string -> list string.

(** X21. [showCopyright] prints its one line exactly when the JDK is not
    strict and the command line contains neither [-showversion] nor
    [-version]; the tests for [--show-version] and [--version] change
    nothing, as both contain [-version]. *)
Theorem showCopyright_iff (global : Globals OptionsTable) :
  showCopyright OptionsTable global
  = if negb (StrictJDK OptionsTable global)
       && negb (Contains (CommandLine OptionsTable global) "-showversion")
       && negb (Contains (CommandLine OptionsTable global) "-version")
    then [Println ("Jacobin VM v. " +:+ Version OptionsTable global
                   +:+ ", © 2021-2 by Andrew Binstock. All rights reserved. MPL 2.0 License.")]
    else [].
Proof.
  unfold showCopyright.
  pose proof (Contains_needle_suffix (CommandLine OptionsTable global) "-" "-version") as H1.
  pose proof (Contains_needle_suffix (CommandLine OptionsTable global) "--show" "-version") as H2.
  change ("-" +:+ "-version") with "--version" in H1.
  change ("--show" +:+ "-version") with "--show-version" in H2.
  destruct (Contains (CommandLine OptionsTable global) "-version").
  - by rewrite !andb_false_r.
  - destruct (Contains (CommandLine OptionsTable global) "--version"); [by discriminate H1|].
    destruct (Contains (CommandLine OptionsTable global) "--show-version");
      [by discriminate H2|].
    destruct (Contains (CommandLine OptionsTable global) "-showversion"),
      (StrictJDK OptionsTable global); reflexivity.
Qed.

End CliProperties.

Lemma getOptionRootAndArgs_no_error (a : string) :
  a <> "" -> snd (cli.getOptionRootAndArgs a) = None.
Proof.
  intros Ha. unfold cli.getOptionRootAndArgs.
  destruct a as [|c a]; [done|]. cbn [String.length Nat.eqb]. cbv zeta.
  by destruct (_ =? -1)%Z.
Qed.

Section CliLoopProperties.

Import cli.

Variable OptionsTable : Type.
Variable Options_lookup :
  OptionsTable -> string -> option (Z -> string -> Globals OptionsTable -> Z * Globals OptionsTable).

(** One turn of the loop on an argument that is neither the class to run
    nor a known option. *)
Lemma HandleCli_loop_ignored (fuel : nat) (args : list string) (i : nat) (a : string)
    (Global : Globals OptionsTable) (out : list output) :
  args !! i = Some a ->
  HasSuffix (option_of a) ".class" = false ->
  Options_lookup (Options OptionsTable Global) (option_of a) = None ->
  HandleCli_loop OptionsTable Options_lookup (S fuel) args (Z.of_nat i) None Global out
  = HandleCli_loop OptionsTable Options_lookup fuel args (Z.of_nat i + 1) None Global
      (out ++ [not_recognized a]).
Proof.
  intros Ha Hclass Hoption. cbn [HandleCli_loop].
  pose proof (lookup_lt_Some _ _ _ Ha) as Hlt.
  destruct (Z.ltb_spec (Z.of_nat i) (Z.of_nat (length args))); [|lia]. cbn [negb].
  destruct (Z.ltb_spec (Z.of_nat i) 0); [lia|].
  rewrite Nat2Z.id, Ha. unfold option_of in Hclass, Hoption.
  destruct (HasPrefix a "-") eqn:Hdash.
  - assert (Hne : a <> "") by (intros ->; discriminate Hdash).
    pose proof (getOptionRootAndArgs_no_error a Hne) as Herr.
    destruct (getOptionRootAndArgs a) as [[option_ arg] err]. cbn [fst snd] in *.
    subst err. by rewrite Hclass, Hoption.
  - by rewrite Hclass, Hoption.
Qed.

(** The loop of [HandleCli] up to the first argument whose option ends in
    [.class], the arguments before it being neither known options nor
    classes. *)
Lemma HandleCli_loop_starting_class (fuel : nat) (before after : list string)
    (class : string) (Global : Globals OptionsTable) (out : list output) :
  (forall a, a ∈ before ->
     HasSuffix (option_of a) ".class" = false
     /\ Options_lookup (Options OptionsTable Global) (option_of a) = None) ->
  HasSuffix (option_of class) ".class" = true ->
  (length before < fuel)%nat ->
  HandleCli_loop OptionsTable Options_lookup fuel (before ++ class :: after) 0 None Global out
  = Some (Ok (with_starting_class Global (option_of class) after,
              out ++ (not_recognized <$> before))).
Proof.
  intros Hignored Hclass Hfuel.
  assert (Hloop : forall (todo seen : list string) (fuel : nat) (out : list output),
             before = seen ++ todo -> (length todo < fuel)%nat ->
             HandleCli_loop OptionsTable Options_lookup fuel (before ++ class :: after)
               (Z.of_nat (length seen)) None Global out
             = Some (Ok (with_starting_class Global (option_of class) after,
                         out ++ (not_recognized <$> todo)))).
  { clear fuel out Hfuel.
    induction todo as [|a todo IH]; intros seen fuel out Hbefore Hfuel.
    - destruct fuel as [|fuel]; [cbn in Hfuel; lia|]. cbn [HandleCli_loop].
      rewrite app_nil_r in Hbefore. subst seen.
      rewrite length_app. cbn [length].
      destruct (Z.ltb_spec (Z.of_nat (length before))
                           (Z.of_nat (length before + S (length after)))); [|lia].
      cbn [negb]. destruct (Z.ltb_spec (Z.of_nat (length before)) 0); [lia|].
      rewrite Nat2Z.id, list_lookup_middle by reflexivity.
      assert (Hdrop : drop (Z.to_nat (Z.of_nat (length before) + 1))
                           (before ++ class :: after) = after).
      { replace (Z.to_nat (Z.of_nat (length before) + 1))
          with (length (before ++ [class])) by (rewrite length_app; cbn; lia).
        change (before ++ class :: after) with (before ++ [class] ++ after).
        rewrite app_assoc. apply drop_app_length. }
      rewrite Hdrop, app_nil_r. unfold option_of in Hclass |- *.
      destruct (HasPrefix class "-") eqn:Hdash.
      + assert (Hne : class <> "") by (intros ->; discriminate Hdash).
        pose proof (getOptionRootAndArgs_no_error class Hne) as Herr.
        destruct (getOptionRootAndArgs class) as [[option_ arg] err]. cbn [fst snd] in *.
        subst err. by rewrite Hclass.
      + by rewrite Hclass.
    - destruct fuel as [|fuel]; [cbn in Hfuel; lia|].
      assert (Ha : (before ++ class :: after) !! length seen = Some a).
      { rewrite Hbefore, <- app_assoc. by apply list_lookup_middle. }
      destruct (Hignored a) as [Hnoclass Hnooption].
      { rewrite Hbefore. apply elem_of_app. right. apply list_elem_of_here. }
      rewrite (HandleCli_loop_ignored fuel _ _ a Global out Ha Hnoclass Hnooption).
      replace (Z.of_nat (length seen) + 1)%Z with (Z.of_nat (length (seen ++ [a])))
        by (rewrite length_app; cbn; lia).
      rewrite (IH (seen ++ [a]) fuel (out ++ [not_recognized a])).
      + by rewrite fmap_cons, <- app_assoc.
      + by rewrite <- app_assoc.
      + cbn in Hfuel. lia. }
  apply (Hloop before [] fuel out); [reflexivity|exact Hfuel].
Qed.


Variable strings_TrimSpace : string -> string.
Variable strings_Fields : string -> list string.

Local Abbreviation run_cli :=
  (HandleCli OptionsTable Options_lookup strings_TrimSpace strings_Fields).
Local Abbreviation env_args := (getEnvArgs strings_TrimSpace).

(** X22. The first argument whose option ends in [.class] ends the
    processing of the command line: when the arguments before it, those of
    the environment included, are neither known options nor classes, each
    of them is reported on the standard error and ignored, [HandleCli]
    returns [nil], the option is the starting class and all the arguments
    after it are the application's arguments, untouched. *)
Theorem HandleCli_starting_class (fuel : nat) (Getenv : string -> string)
    (program : string) (rest before after : list string) (class : string)
    (Global : Globals OptionsTable) :
  strings_Fields (env_args Getenv) ++ rest = before ++ class :: after ->
  (forall a, a ∈ before ->
     HasSuffix (option_of a) ".class" = false
     /\ Options_lookup (Options OptionsTable Global) (option_of a) = None) ->
  HasSuffix (option_of class) ".class" = true ->
  (length before < fuel)%nat ->
  exists Global' out,
    run_cli fuel Getenv (program :: rest) Global
    = Some (Ok (None, Global', out ++ (not_recognized <$> before)))
    /\ StartingClass OptionsTable Global' = option_of class
    /\ AppArgs OptionsTable Global' = AppArgs OptionsTable Global ++ after
    /\ Args OptionsTable Global' = before ++ class :: after.
Proof.
  intros Hargs Hignored Hclass Hfuel. unfold HandleCli. cbv zeta. cbn [Args].
  rewrite Hargs.
  erewrite (HandleCli_loop_starting_class fuel before after class);
    [|exact Hignored|exact Hclass|exact Hfuel].
  eexists _, _. split; [reflexivity|]. by cbn.
Qed.


End CliLoopProperties.

Lemma consume_counts_witness :
  metrics.consume ["gc"; "load"; "gc"] {[ "gc" := 5%Z ]} !! "gc" = Some 7%Z
  /\ metrics.consume ["gc"; "load"; "gc"] {[ "gc" := 5%Z ]} !! "idle" = None.
Proof.
  destruct (consume_counts ["gc"; "load"; "gc"] {[ "gc" := 5%Z ]} "gc") as (_ & _ & Hsum).
  destruct (consume_counts ["gc"; "load"; "gc"] {[ "gc" := 5%Z ]} "idle") as (Hnone & _).
  split.
  - apply Hsum; vm_compute; done.
  - rewrite Hnone; vm_compute; reflexivity.
Defined.

Lemma RegisterProvider_then_served_witness :
  management.GetProvider unit "heap"
    (snd (management.RegisterProvider unit (sample_provider "heap") sample_registry))
  = Some (sample_provider "heap")
  /\ server.ServeHTTP unit unit (fun _ => inl "{}") "/instrumentation/heap" ["gc"; "heap"] tt ∅
       (snd (management.RegisterProvider unit (sample_provider "heap") sample_registry))
     = [server.Header_Add "Content-Type" "text/json"; server.WriteHeader 200;
        server.WriteString "{}"].
Proof.
  destruct (RegisterProvider_then_served unit unit (fun _ => inl "{}")
              (sample_provider "heap") sample_registry ["gc"; "heap"] tt ∅)
    as (Hget & _ & Hserve & _).
  - vm_compute. reflexivity.
  - split; [exact Hget|exact Hserve].
Defined.

Lemma getOptionRootAndArgs_split_witness :
  cli.getOptionRootAndArgs "" = ("", "", Some (errors_New "empty option error"))
  /\ exists root arg,
       cli.getOptionRootAndArgs "-Dkey=value:more" = (root, arg, None)
       /\ "-Dkey=value:more" = root +:+ ":" +:+ arg
       /\ Contains root ":" = false.
Proof.
  destruct (getOptionRootAndArgs_split "") as [Hempty _].
  destruct (getOptionRootAndArgs_split "-Dkey=value:more") as [_ Hsplit].
  split; [by apply Hempty|].
  destruct Hsplit as (root & arg & Hresult & Hcolon & _); [discriminate|].
  exists root, arg. split; [exact Hresult|]. apply Hcolon. reflexivity.
Defined.

Lemma findCommitHash_first_witness :
  cli.findCommitHash [ {| cli.Key := "vcs"; cli.Value := "git" |} ] = ""
  /\ cli.findCommitHash
       ([ {| cli.Key := "vcs"; cli.Value := "git" |} ]
        ++ {| cli.Key := "vcs.revision"; cli.Value := "4f2a" |}
        :: [ {| cli.Key := "vcs.revision"; cli.Value := "later" |} ])
     = "4f2a".
Proof.
  apply (findCommitHash_first [ {| cli.Key := "vcs"; cli.Value := "git" |} ]
           [ {| cli.Key := "vcs.revision"; cli.Value := "later" |} ] "4f2a").
  intros setting Hin%list_elem_of_In. simpl in Hin. destruct Hin as [<-|[]]. discriminate.
Defined.

Lemma HandleCli_starting_class_witness :
  exists Global' out,
    cli.HandleCli unit sample_options (fun s => s) (fun _ => []) 2 (fun _ => "")
      ["jacobin"; "-foo"; "Hello.class"; "a"; "b"] sample_cli_globals
    = Some (Ok (None, Global', out ++ (not_recognized <$> ["-foo"])))
    /\ cli.StartingClass unit Global' = "Hello.class"
    /\ cli.AppArgs unit Global' = ["a"; "b"]
    /\ cli.Args unit Global' = ["-foo"; "Hello.class"; "a"; "b"].
Proof.
  apply (HandleCli_starting_class unit sample_options (fun s => s) (fun _ => []) 2
           (fun _ => "") "jacobin" ["-foo"; "Hello.class"; "a"; "b"]
           ["-foo"] ["a"; "b"] "Hello.class" sample_cli_globals).
  - reflexivity.
  - intros a Hin%list_elem_of_In. simpl in Hin. destruct Hin as [<-|[]].
    split; vm_compute; reflexivity.
  - vm_compute. reflexivity.
  - cbn. lia.
Defined.


(** ** Walking and loading on one handle *)

Lemma populate_lookup (files : list zip_File) (key : string)
    (ents : gmap string string) :
  populate files ents !! key
  = match last_entry_for key files with
    | Some name => Some name
    | None => ents !! key
    end.
Proof.
  induction files as [|f files IH] using rev_ind; [reflexivity|].
  rewrite populate_app. unfold last_entry_for. rewrite foldl_app.
  fold (last_entry_for key files). cbn [populate foldl].
  destruct (HasPrefix (Name f) "classes"); cbn [negb andb]; [|exact IH].
  destruct (String.eqb_spec (Replace1 (Name f) "classes/" "") key) as [->|Hkey].
  - apply lookup_insert_eq.
  - rewrite lookup_insert_ne by done. exact IH.
Qed.

Lemma last_entry_for_app (key : string) (files1 files2 : list zip_File) :
  last_entry_for key (files1 ++ files2)
  = match last_entry_for key files2 with
    | Some name => Some name
    | None => last_entry_for key files1
    end.
Proof.
  unfold last_entry_for. rewrite foldl_app.
  generalize (foldl (fun (found : option string) f =>
                       if HasPrefix (Name f) "classes"
                          && String.eqb (Replace1 (Name f) "classes/" "") key
                       then Some (Name f) else found) None files1).
  intros found1.
  assert (Hgen : forall found,
    foldl (fun (found : option string) f =>
             if HasPrefix (Name f) "classes"
                && String.eqb (Replace1 (Name f) "classes/" "") key
             then Some (Name f) else found) found files2
    = match foldl (fun (found : option string) f =>
                     if HasPrefix (Name f) "classes"
                        && String.eqb (Replace1 (Name f) "classes/" "") key
                     then Some (Name f) else found) None files2 with
      | Some name => Some name
      | None => found
      end).
  { induction files2 as [|f files2 IH]; intros found; [reflexivity|].
    cbn [foldl]. destruct (_ && _).
    - rewrite (IH (Some (Name f))). by destruct (foldl _ None files2).
    - apply IH. }
  apply Hgen.
Qed.

(** The index of the whole archive takes no notice of what indexing an
    initial part of it has stored before. *)
Lemma populate_absorbs_prefix (visited rest : list zip_File) (ents : gmap string string) :
  populate (visited ++ rest) (populate visited ents) = populate (visited ++ rest) ents.
Proof.
  apply map_eq. intros key. rewrite !populate_lookup, last_entry_for_app.
  destruct (last_entry_for key rest); [reflexivity|].
  by destruct (last_entry_for key visited).
Qed.

Section WalkThenLoad.

Variable zip_NewReader : bytes -> zip_Reader + error.
Variable fsys : gmap string bytes.

(** What [Walk] leaves in the index: the entries of an initial part of
    the archive. *)
Lemma Walk_loop_entries {S : Type} (walk : WalkEntryFunc S) (fileName : string)
    (classSet : gset string) (use : bool) (files : list zip_File) :
  forall (ents : gmap string string) (st : S),
    exists visited rest,
      files = visited ++ rest
      /\ snd (fst (Walk_loop walk fileName classSet use files ents st))
         = populate visited ents.
Proof.
  induction files as [|f files IH]; intros ents st.
  - exists [], []. split; reflexivity.
  - rewrite Walk_loop_cons.
    destruct (Walk_selects classSet use f); [destruct (body f) as [b|e]|].
    + destruct (IH (populate [f] ents) (fst (walk b (fileName +:+ "+" +:+ Name f) st)))
        as (visited & rest & -> & Hents).
      exists (f :: visited), rest. split; [reflexivity|]. by rewrite Hents.
    + exists [f], files. split; reflexivity.
    + destruct (IH (populate [f] ents) st) as (visited & rest & -> & Hents).
      exists (f :: visited), rest. split; [reflexivity|]. by rewrite Hents.
Qed.

(** X24. On a handle whose guard has not fired, a [Walk] does not change
    what a later [LoadByName] returns, whether the walk ended or stopped at
    an unreadable entry: with the files unchanged, the lookup returns what
    it would have returned without the walk. *)
Theorem Walk_then_LoadByName {S : Type} (j : Jmod) (walk : WalkEntryFunc S) (st : S)
    (name : string) :
  entryListOnce j = false ->
  fst (LoadByName zip_NewReader fsys (snd (fst (Walk zip_NewReader fsys j walk st))) name)
  = fst (LoadByName zip_NewReader fsys j name).
Proof.
  intros Honce. unfold Walk.
  destruct (getZipReader zip_NewReader fsys (FileName j)) as [r|e|m] eqn:Hopen;
    [|reflexivity..].
  destruct (Walk_loop_entries walk (FileName j) (getClasslist r)
              (0 <? size (getClasslist r))%nat (File r) (entries j) st)
    as (visited & rest & Hfiles & Hents).
  destruct (Walk_loop walk (FileName j) (getClasslist r) (0 <? size (getClasslist r))%nat
              (File r) (entries j) st) as [[err ents] st'].
  cbn [fst snd] in Hents. subst ents.
  assert (Hload : fst (LoadByName zip_NewReader fsys
                         {| FileName := FileName j; entryListOnce := entryListOnce j;
                            entries := populate visited (entries j) |} name)
                  = fst (LoadByName zip_NewReader fsys j name)).
  { unfold LoadByName. cbn [FileName entryListOnce entries].
    rewrite Hopen, Honce. cbn [entries].
    rewrite Hfiles, populate_absorbs_prefix.
    destruct (populate (visited ++ rest) (entries j) !! name) as [class|]; [|reflexivity].
    by destruct (Reader_Open r class). }
  by destruct err.
Qed.

(** X25. [getZipReader] returns the error of the operating system for a
    file that cannot be read, the error that names the file and the two
    magic numbers for a file that does not begin with [4A 4D], and, for a
    file of four bytes or more that does, what the ZIP reader makes of the
    bytes after the fourth, whatever the third and fourth byte are. *)
Theorem getZipReader_header (fileName : string) :
  (fsys !! fileName = None ->
   getZipReader zip_NewReader fsys fileName
   = Err (errors_New ("open " +:+ fileName +:+ ": no such file or directory")))
  /\ (forall content,
        fsys !! fileName = Some content -> file_magic content <> MagicNumber ->
        getZipReader zip_NewReader fsys fileName
        = Err (magic_error fileName (file_magic content)))
  /\ (forall v0 v1 payload,
        fsys !! fileName = Some (x4a :: x4d :: v0 :: v1 :: payload) ->
        getZipReader zip_NewReader fsys fileName = of_result (zip_NewReader payload)).
Proof.
  split; [|split].
  - intros Hmissing. unfold getZipReader, os_ReadFile. by rewrite Hmissing.
  - apply getZipReader_magic_mismatch.
  - apply getZipReader_magic_ok.
Qed.

End WalkThenLoad.

Lemma Walk_then_LoadByName_witness :
  fst (LoadByName (fun _ => inl clash_reader) one_jmod_fs
         (snd (fst (Walk (fun _ => inl clash_reader) one_jmod_fs (InitJmod "m.jmod")
                         recorder [])))
         "classesX.class")
  = Ok (Some [x02]).
Proof.
  rewrite (Walk_then_LoadByName (fun _ => inl clash_reader) one_jmod_fs
             (InitJmod "m.jmod") recorder [] "classesX.class").
  - vm_compute. reflexivity.
  - reflexivity.
Defined.

Lemma getZipReader_header_witness :
  getZipReader two_NewReader two_fs "/jdk/jmods/c.jmod"
  = Err (errors_New "open /jdk/jmods/c.jmod: no such file or directory")
  /\ getZipReader two_NewReader readme_fs "README.md"
     = Err (errors_New "An IOException occurred reading README.md: the magic number is invalid. Expected: 4a4d, Got: 2320")
  /\ getZipReader two_NewReader two_fs "/jdk/jmods/a.jmod" = Ok (reader_with [x0a]).
Proof.
  destruct (getZipReader_header two_NewReader two_fs "/jdk/jmods/c.jmod") as (Hmissing & _).
  destruct (getZipReader_header two_NewReader readme_fs "README.md") as (_ & Hmagic & _).
  destruct (getZipReader_header two_NewReader two_fs "/jdk/jmods/a.jmod") as (_ & _ & Hok).
  split; [|split].
  - apply Hmissing. vm_compute. reflexivity.
  - apply (Hmagic (list_byte_of_string "# jmod test data")).
    + vm_compute. reflexivity.
    + vm_compute. discriminate.
  - apply (Hok x01 x00 [x01]). vm_compute. reflexivity.
Defined.
